(** * Deposit flow of the poker front-end: a shallow embedding

    This development embeds the deposit-session hook
    ([src/hooks/deposit/useDepositSession.ts]) and the two presentation
    helpers it feeds ([DepositTimer.tsx], [DepositProgressBar.tsx]) and
    proves properties of them.

    Conventions.
    - JavaScript numbers are IEEE 754 binary64 values.  The argument of
      [formatTime] and of the [DepositTimer] component is modelled as one
      (a primitive float, with the binary64 division that [SpecFloat]
      specifies).  The two counters of the hook ([timeLeft],
      [completionCountdown]) only ever hold integers between 0 and 300,
      which doubles hold and decrement exactly; they are [Z].
      [progressPercentage], which receives the result of a division, is an
      exact rational [Q].  The bounds proved on it are between 0 and 100,
      both exactly representable, and IEEE rounding is monotone.
    - React state is a record; a setter call is a function [State -> State]
      and a batch of setter calls is their composition in call order.
    - A function created during a render closes over the state of that
      render.  Such a function takes the captured state as an explicit
      argument [env], separate from the state its setters later act on.
    - [useEffect] is modelled with its dependency list, its cleanup and the
      render/effect loop; [setInterval]/[clearInterval] act on an explicit
      table of live intervals. *)

From Stdlib Require Import ZArith NArith QArith Qminmax Lqa List String Ascii Bool Lia.
From Stdlib Require Import DecimalString DecimalN.
From Stdlib Require Import Floats.
Import ListNotations.

Local Open Scope string_scope.

(* ================================================================== *)
(** * Part I: the embedding *)
(* ================================================================== *)

(** ** Shared types ([src/types], imported by every deposit file) *)

Module Types.

(** Modelled from the spec: the [TransactionStatus] union is declared in
    [src/types], which is not among the sources.  The spec speaks of five
    enum values; they are the five literals that the [switch] statements of
    [getProgressFromStatus] and [getStatusMessage] enumerate, and the type
    is nullable ([useState<TransactionStatus>(null)]). *)
Inductive TxStatus : Type :=
| DETECTED
| PROCESSING
| CONFIRMING
| CONFIRMED
| COMPLETED.

Definition TransactionStatus : Type := option TxStatus.

Definition TxStatus_eqb (a b : TxStatus) : bool :=
  match a, b with
  | DETECTED, DETECTED
  | PROCESSING, PROCESSING
  | CONFIRMING, CONFIRMING
  | CONFIRMED, CONFIRMED
  | COMPLETED, COMPLETED => true
  | _, _ => false
  end.

(** [a === b] on [TransactionStatus] values. *)
Definition TransactionStatus_eqb (a b : TransactionStatus) : bool :=
  match a, b with
  | None, None => true
  | Some x, Some y => TxStatus_eqb x y
  | _, _ => false
  end.

(** The string literal that denotes a status in the source. *)
Definition TxStatus_literal (s : TxStatus) : string :=
  match s with
  | DETECTED => "DETECTED"
  | PROCESSING => "PROCESSING"
  | CONFIRMING => "CONFIRMING"
  | CONFIRMED => "CONFIRMED"
  | COMPLETED => "COMPLETED"
  end.

(** Modelled from the spec: [DepositSession] is declared in [src/types] as
    well.  The glossary calls it a server-tracked record; the hook reads
    the fields [_id], [status] and [txStatus] only, and the object spread
    [{ ...prev, status: "EXPIRED" }] keeps every other field, so the three
    fields below are all the hook can observe.  The session [status] is
    kept as the string the server sent. *)
Record DepositSession : Type := mkDepositSession {
  _id : string;
  status : string;
  txStatus : TransactionStatus
}.

Definition DepositSession_eqb (a b : DepositSession) : bool :=
  String.eqb (_id a) (_id b) && String.eqb (status a) (status b)
  && TransactionStatus_eqb (txStatus a) (txStatus b).

Definition option_eqb {A : Type} (eqb : A -> A -> bool) (a b : option A) : bool :=
  match a, b with
  | None, None => true
  | Some x, Some y => eqb x y
  | _, _ => false
  end.

End Types.

Import Types.

(** ** JavaScript numbers

    A [number] is a binary64 value, here a primitive float.  [Prim2SF]
    gives its sign, mantissa and exponent; the value of
    [S754_finite s m e] is [m * 2^e], negated when [s] is set. *)

Module Number.

Local Open Scope Z_scope.

Definition signed (s : bool) (m : positive) : Z :=
  if s then Z.neg m else Z.pos m.

(** The integer a number holds, when it is finite and has no fractional
    part (either zero counts as 0). *)
Definition integerValue (x : float) : option Z :=
  match Prim2SF x with
  | S754_zero _ => Some 0
  | S754_finite s m e =>
      if 0 <=? e then Some (signed s m * 2 ^ e)
      else if signed s m mod 2 ^ (- e) =? 0 then Some (signed s m / 2 ^ (- e))
      else None
  | S754_infinity _ | S754_nan => None
  end.

(** [Math.floor(x)] of a finite [x], as the integer it is.  [Math.floor]
    returns NaN and the infinities unchanged; they are left out here. *)
Definition floor (x : float) : option Z :=
  match Prim2SF x with
  | S754_zero _ => Some 0
  | S754_finite s m e =>
      Some (if 0 <=? e then signed s m * 2 ^ e else signed s m / 2 ^ (- e))
  | S754_infinity _ | S754_nan => None
  end.

(** [x % d] for an [x] that holds an integer and a non-zero integer [d]:
    the remainder of the truncating division, with the sign of [x].
    Unlike [/], the operator [%] is exact.  An [x] with a fractional part
    is left out here. *)
Definition remainder (x : float) (d : Z) : option Z :=
  option_map (fun n => Z.rem n d) (integerValue x).

(** The number 60 as [Prim2SF] shows it: 15 * 2^49 * 2^-47. *)
Definition sixty : spec_float := S754_finite false 8444249301319680 (-47).

(** The decimal digits of a natural number, ["0"] for zero. *)
Definition digits (n : N) : string :=
  NilEmpty.string_of_uint (N.to_uint n).

(** [Number.prototype.toString], which is also what a template literal
    and a JSX text node apply, on a number that holds the integer [v]:
    its decimal digits, after a minus sign when negative.  From 10^21 on
    JavaScript switches to exponent notation, which is left out here. *)
Definition toString (v : Z) : option string :=
  if Z.abs v <? 10 ^ 21
  then Some ((if v <? 0 then "-" else "") ++ digits (Z.abs_N v))
  else None.

End Number.

(** ** [DepositTimer.tsx] *)

Module DepositTimer.

Fixpoint repeat_char (c : ascii) (k : nat) : string :=
  match k with
  | O => EmptyString
  | S k' => String c (repeat_char c k')
  end.

(** [s.padStart(targetLength, fill)] for a one-character [fill]. *)
Definition padStart (targetLength : nat) (fill : ascii) (s : string) : string :=
  repeat_char fill (targetLength - String.length s) ++ s.

(** [formatTime], lines 11-15.  The result is absent where [Number]
    leaves an operation out: for an argument that is not a finite integer
    and for minutes from 10^21 on. *)
Definition formatTime (seconds : float) : option string :=
  match Number.floor (seconds / 60)%float, Number.remainder seconds 60 with
  | Some mins, Some secs =>
      match Number.toString mins, Number.toString secs with
      | Some m, Some s => Some (padStart 2 "0" m ++ ":" ++ padStart 2 "0" s)
      | _, _ => None
      end
  | _, _ => None
  end.

(** The text of the second [div] of the component, line 27. *)
Definition expiryLine (timeLeft : float) : option string :=
  match Number.floor (timeLeft / 60)%float, Number.remainder timeLeft 60 with
  | Some mins, Some secs =>
      match Number.toString mins, Number.toString secs with
      | Some m, Some s =>
          Some ("Session will expire in " ++ m ++ " minutes and " ++ s ++ " seconds")
      | _, _ => None
      end
  | _, _ => None
  end.

(** The text of the first [div], line 24. *)
Definition remainingLine (timeLeft : float) : option string :=
  option_map (fun clock => "Time Remaining: " ++ clock) (formatTime timeLeft).

(** *** Reading the two displays back

    These decoders are specification devices: they recover the numbers a
    reader sees in each display. *)

Definition is_digit (c : ascii) : bool :=
  let n := nat_of_ascii c in (48 <=? n)%nat && (n <=? 57)%nat.

(** Longest prefix of decimal digits, and the rest. *)
Fixpoint span_digits (s : string) : string * string :=
  match s with
  | EmptyString => (EmptyString, EmptyString)
  | String c r =>
      if is_digit c
      then let (d, rest) := span_digits r in (String c d, rest)
      else (EmptyString, s)
  end.

Fixpoint strip_prefix (p s : string) : option string :=
  match p with
  | EmptyString => Some s
  | String a p' =>
      match s with
      | String b s' => if Ascii.eqb a b then strip_prefix p' s' else None
      | EmptyString => None
      end
  end.

(** The number a digit string denotes (leading zeros allowed). *)
Definition read_number (s : string) : option N :=
  match s with
  | EmptyString => None
  | _ => option_map N.of_uint (NilEmpty.uint_of_string s)
  end.

(** Decode ["MM:SS"] into (minutes, seconds). *)
Definition decode_clock (s : string) : option (N * N) :=
  let (m, rest) := span_digits s in
  match strip_prefix ":" rest with
  | Some rest' =>
      let (sec, tail) := span_digits rest' in
      match tail, read_number m, read_number sec with
      | EmptyString, Some a, Some b => Some (a, b)
      | _, _, _ => None
      end
  | None => None
  end.

(** Decode the sentence of line 27 into (minutes, seconds). *)
Definition decode_sentence (s : string) : option (N * N) :=
  match strip_prefix "Session will expire in " s with
  | Some r1 =>
      let (m, r2) := span_digits r1 in
      match strip_prefix " minutes and " r2 with
      | Some r3 =>
          let (sec, r4) := span_digits r3 in
          match strip_prefix " seconds" r4, read_number m, read_number sec with
          | Some EmptyString, Some a, Some b => Some (a, b)
          | _, _, _ => None
          end
      | None => None
      end
  | None => None
  end.


End DepositTimer.

(** ** [DepositProgressBar.tsx] *)

Module DepositProgressBar.

(** [getStatusMessage], lines 14-29. *)
Definition getStatusMessage (status : TransactionStatus) : string :=
  match status with
  | Some DETECTED => "Transaction Detected"
  | Some PROCESSING => "Processing..."
  | Some CONFIRMING => "Confirming..."
  | Some CONFIRMED => "Confirmed! Updating balance..."
  | Some COMPLETED => "Deposit Complete!"
  | None => "Waiting for transaction..."
  end.

End DepositProgressBar.

(** ** [useDepositSession.ts] *)

Module UseDepositSession.

Local Open Scope Z_scope.

(** *** React state of the hook (lines 23-31) *)

Record State : Type := mkState {
  sessionId : option string;
  currentSession : option DepositSession;
  showQR : bool;
  timeLeft : Z;
  transactionStatus : TransactionStatus;
  progressPercentage : Q;
  completionCountdown : Z;
  isDepositCompleted : bool;
  error : option string
}.

(** The arguments of the nine [useState] calls. *)
Definition initialState : State :=
  mkState None None false 300 None 0%Q 0 false None.

(** What the hook returns to its caller (lines 171-182), functions aside:
    every state variable except [completionCountdown]. *)
Record Outputs : Type := mkOutputs {
  out_sessionId : option string;
  out_currentSession : option DepositSession;
  out_showQR : bool;
  out_timeLeft : Z;
  out_transactionStatus : TransactionStatus;
  out_progressPercentage : Q;
  out_isDepositCompleted : bool;
  out_error : option string
}.

Definition outputs (s : State) : Outputs :=
  mkOutputs (sessionId s) (currentSession s) (showQR s) (timeLeft s)
            (transactionStatus s) (progressPercentage s)
            (isDepositCompleted s) (error s).

(** The setters; each replaces one state variable. *)

Definition setSessionId (v : option string) (s : State) : State :=
  mkState v (currentSession s) (showQR s) (timeLeft s) (transactionStatus s)
          (progressPercentage s) (completionCountdown s) (isDepositCompleted s) (error s).

Definition setCurrentSession (v : option DepositSession) (s : State) : State :=
  mkState (sessionId s) v (showQR s) (timeLeft s) (transactionStatus s)
          (progressPercentage s) (completionCountdown s) (isDepositCompleted s) (error s).

Definition setShowQR (v : bool) (s : State) : State :=
  mkState (sessionId s) (currentSession s) v (timeLeft s) (transactionStatus s)
          (progressPercentage s) (completionCountdown s) (isDepositCompleted s) (error s).

Definition setTimeLeft (v : Z) (s : State) : State :=
  mkState (sessionId s) (currentSession s) (showQR s) v (transactionStatus s)
          (progressPercentage s) (completionCountdown s) (isDepositCompleted s) (error s).

Definition setTransactionStatus (v : TransactionStatus) (s : State) : State :=
  mkState (sessionId s) (currentSession s) (showQR s) (timeLeft s) v
          (progressPercentage s) (completionCountdown s) (isDepositCompleted s) (error s).

Definition setProgressPercentage (v : Q) (s : State) : State :=
  mkState (sessionId s) (currentSession s) (showQR s) (timeLeft s) (transactionStatus s)
          v (completionCountdown s) (isDepositCompleted s) (error s).

Definition setCompletionCountdown (v : Z) (s : State) : State :=
  mkState (sessionId s) (currentSession s) (showQR s) (timeLeft s) (transactionStatus s)
          (progressPercentage s) v (isDepositCompleted s) (error s).

Definition setIsDepositCompleted (v : bool) (s : State) : State :=
  mkState (sessionId s) (currentSession s) (showQR s) (timeLeft s) (transactionStatus s)
          (progressPercentage s) (completionCountdown s) v (error s).

Definition setError (v : option string) (s : State) : State :=
  mkState (sessionId s) (currentSession s) (showQR s) (timeLeft s) (transactionStatus s)
          (progressPercentage s) (completionCountdown s) (isDepositCompleted s) v.

Definition unchanged (s : State) : State := s.

(** *** [getProgressFromStatus], lines 34-49 *)

Definition getProgressFromStatus (status : TransactionStatus) : Q :=
  match status with
  | Some DETECTED => 20%Q
  | Some PROCESSING => 40%Q
  | Some CONFIRMING => 60%Q
  | Some CONFIRMED => 80%Q
  | Some COMPLETED => 100%Q
  | None => 0%Q
  end.

(** *** Interval timers

    A live interval is identified by the number [setInterval] returned for
    it; what it runs is one of the three closures the hook passes to
    [setInterval], together with the values that closure captured. *)

Inductive Callback : Type :=
| CompletionTick (capturedCountdown : Z)
    (** lines 70-74; reads [completionCountdown] of the render it was made in *)
| ExpiryTick
    (** lines 85-95; uses functional updates only *)
| PollTick (userAddress : string) (env : State)
    (** lines 142-144; calls the [checkSessionStatus] of the render [env]
        in which the running [createSession] was made *).

Record Interval : Type := mkInterval {
  callback : Callback;
  delay : Z
}.

Record Timers : Type := mkTimers {
  table : list (nat * Interval);
  next : nat
}.

Definition noTimers : Timers := mkTimers [] 0%nat.

Definition setInterval (cb : Callback) (ms : Z) (t : Timers) : nat * Timers :=
  (next t, mkTimers (table t ++ [(next t, mkInterval cb ms)]) (S (next t))).

Definition clearInterval (id : nat) (t : Timers) : Timers :=
  mkTimers (filter (fun e => negb (Nat.eqb (fst e) id)) (table t)) (next t).

Definition lookupInterval (id : nat) (t : Timers) : option Interval :=
  option_map snd (find (fun e => Nat.eqb (fst e) id) (table t)).

Definition live (id : nat) (t : Timers) : bool :=
  existsb (fun e => Nat.eqb (fst e) id) (table t).

(** *** The three effects *)

(** Lines 52-59: the setter calls the status effect queues in a render
    whose state is [r]. *)
Definition statusEffect (r : State) : State -> State :=
  match transactionStatus r with
  | Some st =>
      fun s =>
        let s1 := setProgressPercentage (getProgressFromStatus (Some st)) s in
        if TxStatus_eqb st CONFIRMED then setCompletionCountdown 20 s1 else s1
  | None => unchanged
  end.

(** Lines 62-77: the queued setter calls, and the interval the effect
    starts (whose [clearInterval] is then the cleanup it returns). *)
Definition completionEffect (r : State) : (State -> State) * option Interval :=
  if completionCountdown r <=? 0
  then ((if TransactionStatus_eqb (transactionStatus r) (Some CONFIRMED)
         then setTransactionStatus (Some COMPLETED) else unchanged),
        None)
  else (unchanged, Some (mkInterval (CompletionTick (completionCountdown r)) 1000)).

(** Lines 70-74, the interval callback. *)
Definition completionTick (capturedCountdown : Z) (s : State) : State :=
  let s1 := setCompletionCountdown (completionCountdown s - 1) s in
  let newProgress := (80 + ((30 - inject_Z capturedCountdown) / 30) * 20)%Q in
  setProgressPercentage (Qmin newProgress 100%Q) s1.

(** Line 81: the condition of the early return. *)
Definition expiryIdle (r : State) : bool :=
  negb (showQR r)
  || match currentSession r with
     | None => true
     | Some c => negb (String.eqb (status c) "PENDING")
     end
  || (timeLeft r <=? 0).

(** Lines 80-98. *)
Definition expiryEffect (r : State) : option Interval :=
  if expiryIdle r then None else Some (mkInterval ExpiryTick 1000).

Definition expire (prev : DepositSession) : DepositSession :=
  mkDepositSession (_id prev) "EXPIRED" (txStatus prev).

(** Lines 85-95, the interval callback: the updater passed to
    [setTimeLeft], with the two setter calls it makes on expiry. *)
Definition expiryTick (s : State) : State :=
  let prevTime := timeLeft s in
  let newTime := prevTime - 1 in
  if newTime <=? 0
  then setTimeLeft 0
         (setCurrentSession (option_map expire (currentSession s))
            (setShowQR false s))
  else setTimeLeft newTime s.

(** *** Requests and what comes back *)

Record Payload : Type := mkPayload {
  userAddress : string;
  depositAddress : string
}.

Inductive Request : Type :=
| POST (url : string) (body : Payload)
| GET (url : string).

(** What the [catch] clause of [createSession] can see of the thrown
    value: [err.response?.data?.error]. *)
Record ErrorData : Type := mkErrorData { data_error : option string }.
Record ErrorResponse : Type := mkErrorResponse { data : option ErrorData }.

Inductive Thrown : Type :=
| NoResponse
    (** falsy, not an object, or an object without a [response] property *)
| WithResponse (response : option ErrorResponse).

Inductive PostOutcome : Type :=
| PostOk (session : DepositSession)
| PostThrew (err : Thrown).

Inductive GetOutcome : Type :=
| GetOk (session : option DepositSession)  (** [response.data], maybe falsy *)
| GetThrew.

(** [a || b] on a possibly absent string: the empty string is falsy. *)
Definition orElse (a : option string) (b : string) : string :=
  match a with
  | Some (String c r) => String c r
  | _ => b
  end.

Definition responseError (r : option ErrorResponse) : option string :=
  match r with
  | Some resp =>
      match data resp with
      | Some d => data_error d
      | None => None
      end
  | None => None
  end.

(** [PROXY_URL] and [DEPOSIT_ADDRESS] come from [config/constants], which
    is not among the sources; the hook only embeds them in its requests,
    so they are parameters here. *)
Class Constants : Type := mkConstants {
  PROXY_URL : string;
  DEPOSIT_ADDRESS : string
}.

Section WithConstants.

Context {constants : Constants}.

(** *** [checkSessionStatus], lines 101-120

    [env] is the state of the render in which this [checkSessionStatus]
    was made by [useCallback]. *)

(** Line 102. *)
Definition checkSessionStatus_returnsEarly (env : State) : bool :=
  match sessionId env with None | Some EmptyString => true | Some _ => false end
  || match currentSession env with None => true | Some _ => false end
  || isDepositCompleted env.

(** Line 105: the request, when one is made. *)
Definition checkSessionStatus_request (env : State) (userAddress : string)
  : option Request :=
  if checkSessionStatus_returnsEarly env then None
  else Some (GET (PROXY_URL ++ "/deposit-sessions/user/" ++ userAddress)).

(** Lines 106-119: the setter calls made once the request has settled. *)
Definition checkSessionStatus_settled (env : State) (outcome : GetOutcome)
  : State -> State :=
  match outcome with
  | GetOk (Some session) =>
      fun s =>
        let s1 := setCurrentSession (Some session) s in
        match txStatus session with
        | Some tx =>
            if negb (TransactionStatus_eqb (Some tx) (transactionStatus env))
            then
              let s2 := setTransactionStatus (Some tx) s1 in
              if TxStatus_eqb tx COMPLETED then setIsDepositCompleted true s2 else s2
            else s1
        | None => s1
        end
  | GetOk None => unchanged
  | GetThrew => unchanged
  end.

(** *** [createSession], lines 123-157 *)

(** Lines 125-130. *)
Definition createSession_request (userAddress : string) : Request :=
  POST (PROXY_URL ++ "/deposit-sessions") (mkPayload userAddress DEPOSIT_ADDRESS).

(** Lines 132-139. *)
Definition createSession_resolved (session : DepositSession) (s : State) : State :=
  setIsDepositCompleted false
    (setProgressPercentage 0%Q
       (setTransactionStatus None
          (setError None
             (setTimeLeft 300
                (setShowQR true
                   (setSessionId (Some (_id session))
                      (setCurrentSession (Some session) s))))))).

(** Lines 142-144: the interval started on success. *)
Definition createSession_poll (env : State) (userAddress : string) : Interval :=
  mkInterval (PollTick userAddress env) 5000.

(** Lines 148-156. *)
Definition createSession_catch (err : Thrown) (s : State) : State :=
  match err with
  | WithResponse r =>
      setError (Some (orElse (responseError r) "Failed to create deposit session")) s
  | NoResponse =>
      setError (Some "Failed to create deposit session") s
  end.

(** *** [resetSession], lines 160-169 *)

Definition resetSession (s : State) : State :=
  setError None
    (setIsDepositCompleted false
       (setProgressPercentage 0%Q
          (setTransactionStatus None
             (setTimeLeft 300
                (setShowQR false
                   (setCurrentSession None
                      (setSessionId None s))))))).

(** *** A mounted instance of the hook *)

(** Per effect: the dependency values of its last run ([None] before the
    first) and, for the two effects that return one, the interval its
    cleanup clears. *)
Record EffectSlots : Type := mkEffectSlots {
  statusDeps : option TransactionStatus;
  completionDeps : option (Z * TransactionStatus);
  completionCleanup : option nat;
  expiryDeps : option (bool * option DepositSession * Z);
  expiryCleanup : option nat
}.

(** An [async] function suspended at its [await], with the render state
    its closure captured. *)
Inductive Pending : Type :=
| AwaitingPost (userAddress : string) (env : State)
| AwaitingGet (userAddress : string) (env : State).

Record Hook : Type := mkHook {
  state : State;
  timers : Timers;
  effects : EffectSlots;
  inflight : list Pending;
  requests : list Request;   (** every request sent so far, oldest first *)
  returned : list nat        (** intervals whose [clearInterval] closure
                                 [createSession] returned to its caller *)
}.

Definition statusDepsChanged (prev : option TransactionStatus) (r : State) : bool :=
  match prev with
  | Some p => negb (TransactionStatus_eqb p (transactionStatus r))
  | None => true
  end.

Definition completionDepsChanged (prev : option (Z * TransactionStatus)) (r : State)
  : bool :=
  match prev with
  | Some (c, p) =>
      negb ((c =? completionCountdown r) && TransactionStatus_eqb p (transactionStatus r))
  | None => true
  end.

(** React compares dependencies with [Object.is]; two session objects
    with equal fields are taken as the same dependency here, which can
    only skip a re-run that would replace the expiry interval by an
    identical one. *)
Definition expiryDepsChanged (prev : option (bool * option DepositSession * Z))
           (r : State) : bool :=
  match prev with
  | Some (q, c, t) =>
      negb (Bool.eqb q (showQR r)
            && option_eqb DepositSession_eqb c (currentSession r)
            && (t =? timeLeft r))
  | None => true
  end.

(** Re-running an effect: the cleanup of its previous run first, then its
    body, whose interval (if it starts one) the new cleanup will clear. *)
Definition runCleanup (cleanup : option nat) (t : Timers) : Timers :=
  match cleanup with
  | Some id => clearInterval id t
  | None => t
  end.

Definition rerunEffect (cleanup : option nat) (body : option Interval) (t : Timers)
  : option nat * Timers :=
  let t1 := runCleanup cleanup t in
  match body with
  | Some iv =>
      let (id, t2) := setInterval (callback iv) (delay iv) t1 in (Some id, t2)
  | None => (None, t1)
  end.

(** An effect whose dependencies did not change keeps its cleanup and
    leaves the timers alone. *)
Definition effectStep (depsChanged : bool) (cleanup : option nat)
           (body : option Interval) (t : Timers) : option nat * Timers :=
  if depsChanged then rerunEffect cleanup body t else (cleanup, t).

(** Some dependency list differs from the values of the current state. *)
Definition stale (h : Hook) : bool :=
  statusDepsChanged (statusDeps (effects h)) (state h)
  || completionDepsChanged (completionDeps (effects h)) (state h)
  || expiryDepsChanged (expiryDeps (effects h)) (state h).

(** One render followed by its effects: every effect whose dependencies
    changed runs against the state [r] of that render, in declaration
    order; the setter calls they make are queued and applied together. *)
Definition renderPass (h : Hook) : Hook :=
  let r := state h in
  let e := effects h in
  let run1 := statusDepsChanged (statusDeps e) r in
  let run2 := completionDepsChanged (completionDeps e) r in
  let run3 := expiryDepsChanged (expiryDeps e) r in
  let q1 := if run1 then statusEffect r else unchanged in
  let q2 := if run2 then fst (completionEffect r) else unchanged in
  let e2 := effectStep run2 (completionCleanup e) (snd (completionEffect r)) (timers h) in
  let e3 := effectStep run3 (expiryCleanup e) (expiryEffect r) (snd e2) in
  mkHook (q2 (q1 r)) (snd e3)
         (mkEffectSlots (Some (transactionStatus r))
                        (Some (completionCountdown r, transactionStatus r)) (fst e2)
                        (Some (showQR r, currentSession r, timeLeft r)) (fst e3))
         (inflight h) (requests h) (returned h).

(** Render until no effect has anything left to do. *)
Fixpoint settle (fuel : nat) (h : Hook) : Hook :=
  match fuel with
  | O => h
  | S fuel' => if stale h then settle fuel' (renderPass h) else h
  end.

(** Two passes always suffice and further ones change nothing (see
    [settle_two_settles] and [settle_enough]). *)
Definition commit (h : Hook) : Hook := settle 3 h.

Definition withState (f : State -> State) (h : Hook) : Hook :=
  mkHook (f (state h)) (timers h) (effects h) (inflight h) (requests h) (returned h).

Definition removeNth {A : Type} (k : nat) (l : list A) : list A :=
  firstn k l ++ skipn (S k) l.

(** *** Events *)

Inductive Event : Type :=
| CallCreateSession (userAddress : string)
    (** the caller invokes the [createSession] of the current render *)
| PostSettles (k : nat) (outcome : PostOutcome)
    (** the [k]-th suspended call resumes after its [axios.post] *)
| CallResetSession
| IntervalFires (id : nat)
| GetSettles (k : nat) (outcome : GetOutcome)
    (** the [k]-th suspended call resumes after its [axios.get] *)
| CallReturnedCleanup (id : nat)
    (** the caller invokes a function [createSession] returned *).

(** The value a settled [createSession] promise carries: the interval its
    cleanup function clears, or [None] for [undefined]. *)
Definition createSession_settled (env : State) (userAddress : string)
           (outcome : PostOutcome) (h : Hook) : Hook * option nat :=
  match outcome with
  | PostOk session =>
      let iv := createSession_poll env userAddress in
      let (id, t) := setInterval (callback iv) (delay iv) (timers h) in
      (mkHook (createSession_resolved session (state h)) t (effects h)
              (inflight h) (requests h) (returned h ++ [id]),
       Some id)
  | PostThrew err => (withState (createSession_catch err) h, None)
  end.

Definition fire (iv : Interval) (h : Hook) : Hook :=
  match callback iv with
  | CompletionTick c => withState (completionTick c) h
  | ExpiryTick => withState expiryTick h
  | PollTick userAddress env =>
      match checkSessionStatus_request env userAddress with
      | Some rq =>
          mkHook (state h) (timers h) (effects h)
                 (inflight h ++ [AwaitingGet userAddress env])
                 (requests h ++ [rq]) (returned h)
      | None => h
      end
  end.

(** What the event itself does, before React renders again. *)
Definition handle (h : Hook) (ev : Event) : Hook :=
  match ev with
  | CallCreateSession userAddress =>
      mkHook (state h) (timers h) (effects h)
             (inflight h ++ [AwaitingPost userAddress (state h)])
             (requests h ++ [createSession_request userAddress]) (returned h)
  | PostSettles k outcome =>
      match nth_error (inflight h) k with
      | Some (AwaitingPost userAddress env) =>
          let h1 := mkHook (state h) (timers h) (effects h)
                           (removeNth k (inflight h)) (requests h) (returned h) in
          fst (createSession_settled env userAddress outcome h1)
      | _ => h
      end
  | CallResetSession => withState resetSession h
  | IntervalFires id =>
      match lookupInterval id (timers h) with
      | Some iv => fire iv h
      | None => h
      end
  | GetSettles k outcome =>
      match nth_error (inflight h) k with
      | Some (AwaitingGet userAddress env) =>
          mkHook (checkSessionStatus_settled env outcome (state h)) (timers h)
                 (effects h) (removeNth k (inflight h)) (requests h) (returned h)
      | _ => h
      end
  | CallReturnedCleanup id =>
      if existsb (Nat.eqb id) (returned h)
      then mkHook (state h) (clearInterval id (timers h)) (effects h)
                  (inflight h) (requests h) (returned h)
      else h
  end.

Definition step (h : Hook) (ev : Event) : Hook := commit (handle h ev).

Definition run (h : Hook) (evs : list Event) : Hook := fold_left step evs h.

(** The hook right after its first render and effects. *)
Definition mounted : Hook :=
  commit (mkHook initialState noTimers (mkEffectSlots None None None None None)
                 [] [] []).

(** Unmounting runs the cleanup of every effect that returned one. *)
Definition unmount (h : Hook) : Hook :=
  let e := effects h in
  let t2 := runCleanup (expiryCleanup e) (runCleanup (completionCleanup e) (timers h)) in
  mkHook (state h) t2
         (mkEffectSlots (statusDeps e) (completionDeps e) None (expiryDeps e) None)
         (inflight h) (requests h) (returned h).

End WithConstants.

End UseDepositSession.

(** ** Vocabulary of the properties

    Predicates and sample data used to state the properties of Part II;
    none of them is part of the program. *)

Import DepositTimer.
Import UseDepositSession.

Module Vocabulary.

Local Open Scope Z_scope.

(** [s] consists of decimal digits: [span_digits] reads through it. *)
Definition all_digits (s : string) : Prop :=
  forall r, span_digits (s ++ r) = (s ++ fst (span_digits r), snd (span_digits r)).

(** The clock as the specification describes it: [m] minutes and [s]
    seconds in decimal, each padded with zeros to two digits. *)
Definition clockOf (m s : N) : string :=
  padStart 2 "0" (Number.digits m) ++ ":" ++ padStart 2 "0" (Number.digits s).



(** The state after the queued setter calls of a pass. *)
Definition passState (run1 run2 : bool) (r : State) : State :=
  (if run2 then fst (completionEffect r) else unchanged)
    ((if run1 then statusEffect r else unchanged) r).

(** The status is kept, or moved from CONFIRMED to COMPLETED. *)
Definition sameStatusOrCompleted (before after : TransactionStatus) : Prop :=
  after = before \/ (before = Some CONFIRMED /\ after = Some COMPLETED).

(** The state variables no effect writes. *)
Definition sameFrame (a b : State) : Prop :=
  sessionId b = sessionId a
  /\ currentSession b = currentSession a
  /\ showQR b = showQR a
  /\ timeLeft b = timeLeft a
  /\ isDepositCompleted b = isDepositCompleted a
  /\ error b = error a.

(** No completion interval captured a countdown above 20. *)
Definition capturedBounded (t : Timers) : Prop :=
  Forall (fun e => match callback (snd e) with
                   | CompletionTick c => c <= 20
                   | _ => True
                   end) (table t).

(** The numeric ranges of the countdowns and of the progress. *)
Definition Bounded (h : Hook) : Prop :=
  completionCountdown (state h) <= 20
  /\ 0 <= timeLeft (state h) <= 300
  /\ (0 <= progressPercentage (state h))%Q
  /\ (progressPercentage (state h) <= 100)%Q
  /\ capturedBounded (timers h).

(** The owner of a live interval: the effect whose cleanup clears it, or
    a caller of [createSession] who was handed the function that does. *)
Definition ownerOf (hc he : option nat) (ret : list nat) (x : nat * Interval) : Prop :=
  match callback (snd x) with
  | CompletionTick _ => hc = Some (fst x)
  | ExpiryTick => he = Some (fst x)
  | PollTick _ _ => In (fst x) ret
  end.

(** [hc] and [he] are the cleanups of the completion and expiry effects,
    [ret] the cleanups handed to callers. *)
Definition TimersOwned (t : Timers) (hc he : option nat) (ret : list nat) : Prop :=
  (forall x, In x (table t) -> (fst x < next t)%nat)
  /\ (forall i, In i ret -> (i < next t)%nat)
  /\ (forall x, In x (table t) -> ownerOf hc he ret x)
  /\ (forall i, hc = Some i ->
        (exists c, lookupInterval i t = Some (mkInterval (CompletionTick c) 1000))
        /\ ~ In i ret)
  /\ (forall i, he = Some i ->
        lookupInterval i t = Some (mkInterval ExpiryTick 1000) /\ ~ In i ret).

(** The part of the early-return test of the expiry effect that its
    dependency list determines. *)
Definition idleFor (q : bool) (c : option DepositSession) (tl : Z) : bool :=
  negb q
  || match c with
     | None => true
     | Some d => negb (String.eqb (status d) "PENDING")
     end
  || (tl <=? 0).

(** Every live interval has an owner, every cleanup an interval, and an
    effect holds a cleanup exactly when its last run passed its guard. *)
Definition Owned (h : Hook) : Prop :=
  TimersOwned (timers h) (completionCleanup (effects h)) (expiryCleanup (effects h))
              (returned h)
  /\ match completionDeps (effects h) with
     | Some (c, _) => completionCleanup (effects h) = None <-> c <= 0
     | None => completionCleanup (effects h) = None
     end
  /\ match expiryDeps (effects h) with
     | Some (q, c, tl) => expiryCleanup (effects h) = None <-> idleFor q c tl = true
     | None => expiryCleanup (effects h) = None
     end.

(** The QR code is shown for a session whose status is PENDING and time
    is left. *)
Definition countingDown (s : State) : Prop :=
  showQR s = true
  /\ (exists c, currentSession s = Some c /\ status c = "PENDING")
  /\ 0 < timeLeft s.

(** The thrown value has a [response] whose [data] has a non-empty
    [error] string. *)
Definition carriesMessage (err : Thrown) (msg : string) : Prop :=
  exists resp d,
    err = WithResponse (Some resp) /\ data resp = Some d
    /\ data_error d = Some msg /\ msg <> EmptyString.

(** Sample values of the two configuration constants, for closed runs. *)
#[export] Instance exampleConstants : Constants :=
  mkConstants "https://proxy.example/api" "0x00000000000000000000000000000000000000d1".


Section WithConstants.

Context {constants : Constants}.




End WithConstants.

(** The chain DETECTED, PROCESSING, CONFIRMING, CONFIRMED, COMPLETED. *)
Definition chain : list TxStatus :=
  [DETECTED; PROCESSING; CONFIRMING; CONFIRMED; COMPLETED].

(** Position along the chain; no status yet counts as before its start. *)
Definition rank (s : TransactionStatus) : nat :=
  match s with
  | None => 0
  | Some DETECTED => 1
  | Some PROCESSING => 2
  | Some CONFIRMING => 3
  | Some CONFIRMED => 4
  | Some COMPLETED => 5
  end.

(** The [txStatus] values of the polled responses of a run. *)
Definition polledStatuses (evs : list Event) : list TxStatus :=
  flat_map (fun ev =>
              match ev with
              | GetSettles _ (GetOk (Some sess)) =>
                  match txStatus sess with Some tx => [tx] | None => [] end
              | _ => []
              end) evs.

(** A session the server answers with; only its [txStatus] varies. *)
Definition sessionWith (tx : TransactionStatus) : DepositSession :=
  mkDepositSession "s1" "PENDING" tx.

(** [createSession] is called and resolves, then is called again from the
    render that has the session and resolves again; the polling interval
    of the second call (number 2) fires and its request settles. *)
Definition pollingRun (tx : TxStatus) : list Event :=
  [CallCreateSession "alice"; PostSettles 0 (PostOk (sessionWith None));
   CallCreateSession "alice"; PostSettles 0 (PostOk (sessionWith None));
   IntervalFires 2; GetSettles 0 (GetOk (Some (sessionWith (Some tx))))].

End Vocabulary.

Export Vocabulary.

(** ** [DepositProgressBar.tsx]: the component, lines 34-76 *)

Module ProgressBar.

Local Open Scope Z_scope.

(** [s.substring(indexStart, indexEnd)]: each index is clamped to the
    range from 0 to the length, and the two are swapped when out of
    order; [None] stands for an omitted [indexEnd]. *)
Definition substring (s : string) (indexStart : Z) (indexEnd : option Z) : string :=
  let len := Z.of_nat (String.length s) in
  let clamp := fun x => Z.min (Z.max x 0) len in
  let a := clamp indexStart in
  let b := match indexEnd with Some e => clamp e | None => len end in
  String.substring (Z.to_nat (Z.min a b)) (Z.to_nat (Z.max a b - Z.min a b)) s.

(** The text of the transaction link, line 70. *)
Definition abbreviateHash (txHash : string) : string :=
  substring txHash 0 (Some 10) ++ "..."
  ++ substring txHash (Z.of_nat (String.length txHash) - 8) None.

Record TxLink : Type := mkTxLink {
  href : string;
  linkText : string
}.

(** What the component shows: the status message, the width of the bar
    in percent, and the transaction link when there is one. *)
Record View : Type := mkView {
  statusMessage : string;
  barWidth : Q;
  txLink : option TxLink
}.

(** Lines 34-76; [None] is the [null] of line 39.  An absent or empty
    [txHash] is falsy (line 60). *)
Definition DepositProgressBar (status : TransactionStatus) (progressPercentage : Q)
           (txHash : option string) : option View :=
  match status with
  | None => None
  | Some _ =>
      Some (mkView (DepositProgressBar.getStatusMessage status) progressPercentage
                   match txHash with
                   | Some (String c r) =>
                       Some (mkTxLink ("https://etherscan.io/tx/" ++ String c r)
                                      (abbreviateHash (String c r)))
                   | _ => None
                   end)
  end.

End ProgressBar.

(** ** The [QRDeposit] component: its own polling and session restore

    The component keeps the state variables of the hook (and others that
    the functions below do not touch); its status, completion and expiry
    effects are, line for line, those of the hook. *)

Module QRDeposit.

Local Open Scope Z_scope.

(** What [axios.get] can do in [checkSessionStatus]: answer, fail with
    status 404, or fail otherwise. *)
Inductive GetOutcome : Type :=
| GetOk (session : option DepositSession)
| GetNotFound
| GetThrew.

(** The guard of [checkSessionStatus]. *)
Definition checkSessionStatus_returnsEarly (env : State) : bool :=
  match sessionId env with None | Some EmptyString => true | Some _ => false end
  || match currentSession env with None => true | Some _ => false end
  || isDepositCompleted env.

(** [checkSessionStatus] after its request has settled: the setter calls
    it makes and whether it calls [refreshBalance].  [env] is the state of
    the render the function belongs to; past the guard its session is
    not null. *)
Definition checkSessionStatus_settled (env : State) (outcome : GetOutcome)
  : (State -> State) * bool :=
  match currentSession env with
  | None => (unchanged, false)
  | Some captured =>
      match outcome with
      | GetOk (Some session) =>
          let adopt := fun s =>
            let s1 := setCurrentSession (Some session) s in
            match txStatus session with
            | Some tx =>
                if negb (TransactionStatus_eqb (Some tx) (transactionStatus env))
                then
                  let s2 := setTransactionStatus (Some tx) s1 in
                  if TxStatus_eqb tx COMPLETED then setIsDepositCompleted true s2 else s2
                else s1
            | None => s1
            end in
          if String.eqb (status session) "COMPLETED"
             && negb (String.eqb (status captured) "COMPLETED")
          then (fun s => setIsDepositCompleted true (adopt s), true)
          else (adopt, false)
      | GetOk None => (unchanged, false)
      | GetNotFound =>
          (fun s =>
             let s1 := setIsDepositCompleted true s in
             if negb (String.eqb (status captured) "COMPLETED")
             then setShowQR false (setCurrentSession None s1)
             else s1,
           false)
      | GetThrew => (unchanged, false)
      end
  end.





End QRDeposit.

(** ** Vocabulary of the further properties *)

Module MoreVocabulary.

Local Open Scope Z_scope.


Definition isCallCreateSession (ev : Event) : bool :=
  match ev with CallCreateSession _ => true | _ => false end.

Definition isIntervalFires (ev : Event) : bool :=
  match ev with IntervalFires _ => true | _ => false end.

Definition isPOST (rq : Request) : bool :=
  match rq with POST _ _ => true | GET _ => false end.

Definition isGET (rq : Request) : bool :=
  match rq with GET _ => true | POST _ _ => false end.

Definition count {A : Type} (p : A -> bool) (l : list A) : nat :=
  List.length (filter p l).

(** The first [n] characters of a string and the rest. *)
Fixpoint takeChars (n : nat) (s : string) : string :=
  match n, s with
  | S n', String c r => String c (takeChars n' r)
  | _, _ => EmptyString
  end.

Fixpoint dropChars (n : nat) (s : string) : string :=
  match n, s with
  | S n', String _ r => dropChars n' r
  | _, _ => s
  end.

End MoreVocabulary.

Export MoreVocabulary.

(* ================================================================== *)
(** * Part II: properties *)
(* ================================================================== *)

(** ** The countdown displays ([DepositTimer.tsx]) *)

Example formatTime_300 : formatTime 300 = Some "05:00".
Proof. vm_compute. reflexivity. Qed.

Example formatTime_59 : formatTime 59 = Some "00:59".
Proof. vm_compute. reflexivity. Qed.

Example formatTime_6000 : formatTime 6000 = Some "100:00".
Proof. vm_compute. reflexivity. Qed.

Example formatTime_fraction : formatTime 0.5 = None.
Proof. vm_compute. reflexivity. Qed.

Example expiryLine_299 :
  expiryLine 299 = Some "Session will expire in 4 minutes and 59 seconds".
Proof. vm_compute. reflexivity. Qed.

Example decode_clock_300 : decode_clock "05:00" = Some (5, 0)%N.
Proof. reflexivity. Qed.

Example decode_sentence_299 :
  decode_sentence "Session will expire in 4 minutes and 59 seconds" = Some (4, 59)%N.
Proof. reflexivity. Qed.

(** *** The double division by 60

    [Math.floor(seconds / 60)] divides in binary64.  The lemmas below
    follow [SFdiv] on a dividend that holds an integer below 2^53: the
    quotient is rounded to a multiple of 2^-5 at the coarsest, which is
    too fine to carry it across a whole number. *)

Section DoubleDivision.

Local Open Scope Z_scope.

Lemma digits2_pos_bounds (p : positive) :
  2 ^ (Z.pos (digits2_pos p) - 1) <= Z.pos p < 2 ^ Z.pos (digits2_pos p).
Proof.
  induction p as [p IH | p IH |]; cbn [digits2_pos].
  - rewrite Pos2Z.inj_succ, (Pos2Z.inj_xI p).
    replace (Z.succ (Z.pos (digits2_pos p)) - 1) with (Z.succ (Z.pos (digits2_pos p) - 1)) by lia.
    rewrite !Z.pow_succ_r by lia.
    revert IH. generalize (2 ^ (Z.pos (digits2_pos p) - 1)), (2 ^ Z.pos (digits2_pos p)).
    intros; lia.
  - rewrite Pos2Z.inj_succ, (Pos2Z.inj_xO p).
    replace (Z.succ (Z.pos (digits2_pos p)) - 1) with (Z.succ (Z.pos (digits2_pos p) - 1)) by lia.
    rewrite !Z.pow_succ_r by lia.
    revert IH. generalize (2 ^ (Z.pos (digits2_pos p) - 1)), (2 ^ Z.pos (digits2_pos p)).
    intros; lia.
  - change (1 <= 1 < 2). lia.
Qed.

Lemma digits2_pos_unique (p : positive) (d : Z) :
  2 ^ (d - 1) <= Z.pos p < 2 ^ d -> Z.pos (digits2_pos p) = d.
Proof.
  intros [Hlo Hhi]. pose proof (digits2_pos_bounds p) as [Blo Bhi].
  set (D := Z.pos (digits2_pos p)) in *.
  assert (0 < d).
  { destruct (Z_lt_le_dec 0 d); [assumption |].
    assert (2 ^ d <= 2 ^ 0) by (destruct (Z.eq_dec d 0) as [->|]; [lia | rewrite Z.pow_neg_r by lia; simpl; lia]).
    simpl in *. lia. }
  destruct (Z.lt_trichotomy D d) as [Hlt | [Heq | Hgt]]; [| exact Heq |].
  - assert (2 ^ D <= 2 ^ (d - 1)) by (apply Z.pow_le_mono_r; lia). lia.
  - assert (2 ^ d <= 2 ^ (D - 1)) by (apply Z.pow_le_mono_r; lia). lia.
Qed.

Lemma loc_of_shr_record_of_loc (m : Z) (l : location) :
  loc_of_shr_record (shr_record_of_loc m l) = l.
Proof. destruct l as [|[]]; reflexivity. Qed.

Lemma Prim2SF_60 : Prim2SF 60%float = Number.sixty.
Proof. reflexivity. Qed.

(** The quotient mantissa and the rounding direction. *)
Lemma SFdiv_core_60 (m : positive) (e : Z) :
  2 ^ 52 <= Z.pos m < 2 ^ 53 -> -52 <= e <= 0 ->
  SFdiv_core_binary prec emax (Z.pos m) e 8444249301319680 (-47)
  = ((Z.pos m * 2 ^ 53) / 8444249301319680, e - 6,
     new_location 8444249301319680 ((Z.pos m * 2 ^ 53) mod 8444249301319680)).
Proof.
  intros Hm He. unfold SFdiv_core_binary. cbn [Zdigits2].
  rewrite (digits2_pos_unique m 53) by exact Hm.
  change (Z.pos (digits2_pos 8444249301319680)) with 53.
  replace (Z.min _ _) with (e - 6)
    by (unfold fexp, SpecFloat.emin, prec, emax; lia).
  replace (e - -47 - (e - 6)) with 53 by lia.
  rewrite Z.shiftl_mul_pow2 by lia.
  unfold Z.div, Z.modulo.
  destruct (Z.div_eucl (Z.pos m * 2 ^ 53) 8444249301319680). reflexivity.
Qed.

Lemma shr_m_of_loc (m : Z) (l : location) : shr_m (shr_record_of_loc m l) = m.
Proof. destruct l as [|[]]; reflexivity. Qed.

(** Rounding a mantissa that already has 53 digits. *)
Lemma shr_fexp_53 (p : positive) (e : Z) (l : location) :
  2 ^ 52 <= Z.pos p < 2 ^ 53 -> -1000 <= e <= 0 ->
  shr_fexp prec emax (Z.pos p) e l = (shr_record_of_loc (Z.pos p) l, e).
Proof.
  intros Hp He. unfold shr_fexp. cbn [Zdigits2].
  rewrite (digits2_pos_unique p 53) by exact Hp.
  replace (fexp prec emax (53 + e) - e) with 0
    by (unfold fexp, SpecFloat.emin, prec, emax; lia).
  reflexivity.
Qed.

(** A mantissa of 54 digits loses its last bit. *)
Lemma shr_fexp_54 (p : positive) (e : Z) (l : location) :
  2 ^ 53 <= Z.pos p < 2 ^ 54 -> -1000 <= e <= 0 ->
  shr_fexp prec emax (Z.pos p) e l = (shr_1 (shr_record_of_loc (Z.pos p) l), e + 1).
Proof.
  intros Hp He. unfold shr_fexp. cbn [Zdigits2].
  rewrite (digits2_pos_unique p 54) by exact Hp.
  replace (fexp prec emax (54 + e) - e) with 1
    by (unfold fexp, SpecFloat.emin, prec, emax; lia).
  reflexivity.
Qed.

Lemma round_aux_53 (p : positive) (e : Z) (l : location) :
  2 ^ 52 <= Z.pos p < 2 ^ 53 -> -1000 <= e <= 0 ->
  2 ^ 52 <= round_nearest_even (Z.pos p) l < 2 ^ 53 ->
  binary_round_aux prec emax false (Z.pos p) e l
  = S754_finite false (Z.to_pos (round_nearest_even (Z.pos p) l)) e.
Proof.
  intros Hp He Hr. unfold binary_round_aux.
  rewrite shr_fexp_53 by assumption.
  rewrite shr_m_of_loc, loc_of_shr_record_of_loc.
  destruct (round_nearest_even (Z.pos p) l) as [|p1|p1] eqn:E; try lia.
  rewrite shr_fexp_53 by assumption. cbn [shr_record_of_loc shr_m].
  replace (e <=? emax - prec) with true
    by (symmetry; apply Z.leb_le; unfold prec, emax; lia).
  reflexivity.
Qed.

Lemma round_aux_54 (p : positive) (e : Z) (l : location) :
  2 ^ 53 <= Z.pos p < 2 ^ 54 -> -1000 <= e <= -1 ->
  let mrs := shr_1 (shr_record_of_loc (Z.pos p) l) in
  2 ^ 52 <= round_nearest_even (shr_m mrs) (loc_of_shr_record mrs) < 2 ^ 53 ->
  binary_round_aux prec emax false (Z.pos p) e l
  = S754_finite false
      (Z.to_pos (round_nearest_even (shr_m mrs) (loc_of_shr_record mrs))) (e + 1).
Proof.
  intros Hp He mrs Hr. unfold binary_round_aux.
  rewrite shr_fexp_54 by (assumption || lia). fold mrs.
  destruct (round_nearest_even (shr_m mrs) (loc_of_shr_record mrs)) as [|p1|p1] eqn:E;
    try lia.
  rewrite shr_fexp_53 by (assumption || lia). cbn [shr_record_of_loc shr_m].
  replace (e + 1 <=? emax - prec) with true
    by (symmetry; apply Z.leb_le; unfold prec, emax; lia).
  reflexivity.
Qed.

(** The double quotient of an integer-valued double below 2^53 by 60:
    its mantissa [M] and exponent [e - g] are those of the exact quotient
    rounded to the nearest multiple of 2^(e - g), exactly so when 15
    divides the mantissa. *)
Lemma SFdiv_60 (m : positive) (e : Z) :
  2 ^ 52 <= Z.pos m < 2 ^ 53 -> -52 <= e <= 0 ->
  exists (M : positive) (G : Z),
    SFdiv prec emax (S754_finite false m e) Number.sixty
    = S754_finite false M (e - (if G =? 64 then 6 else 5))
    /\ (G = 32 \/ G = 64)
    /\ -30 <= 60 * Z.pos M - G * Z.pos m <= 30
    /\ (Z.pos m mod 15 = 0 -> 60 * Z.pos M = G * Z.pos m).
Proof.
  intros Hm He. unfold SFdiv, Number.sixty.
  rewrite SFdiv_core_60 by assumption. cbv beta iota. cbn [xorb].
  pose proof (Z.div_mod (Z.pos m * 2 ^ 53) 8444249301319680 ltac:(lia)) as Hqr.
  pose proof (Z.mod_pos_bound (Z.pos m * 2 ^ 53) 8444249301319680 ltac:(lia)) as Hr.
  set (q := Z.pos m * 2 ^ 53 / 8444249301319680) in *.
  set (r := (Z.pos m * 2 ^ 53) mod 8444249301319680) in *.
  change (2 ^ 53) with 9007199254740992 in *.
  change (2 ^ 52) with 4503599627370496 in *.
  assert (Hq : 4503599627370496 <= q < 18014398509481984) by lia.
  unfold new_location. change (Z.even 8444249301319680) with true. cbv iota.
  unfold new_location_even.
  destruct q as [|pq|pq] eqn:Eq; try lia.
  destruct (Z_lt_le_dec (Z.pos pq) 9007199254740992) as [Hlt | Hge].
  - (* 53 digits *)
    assert (Hround : 4503599627370496
                     <= round_nearest_even (Z.pos pq)
                          (if r =? 0 then loc_Exact
                           else loc_Inexact (2 * r ?= 8444249301319680))
                     < 9007199254740992
                     /\ -30 <= 60 * round_nearest_even (Z.pos pq)
                                      (if r =? 0 then loc_Exact
                                       else loc_Inexact (2 * r ?= 8444249301319680))
                               - 64 * Z.pos m <= 30
                     /\ (Z.pos m mod 15 = 0 ->
                         60 * round_nearest_even (Z.pos pq)
                                (if r =? 0 then loc_Exact
                                 else loc_Inexact (2 * r ?= 8444249301319680))
                         = 64 * Z.pos m)).
    { destruct (Z.eqb_spec r 0) as [Hr0 | Hr0]; cbn [round_nearest_even].
      - split; [lia |]. split; [lia |]. intros _. lia.
      - destruct (Z.compare_spec (2 * r) 8444249301319680) as [Hc | Hc | Hc];
          cbn [round_nearest_even].
        + exfalso. lia.
        + split; [lia |]. split; [lia |]. intro H15.
          apply Z.mod_divide in H15 as [j Hj]; lia.
        + split; [lia |]. split; [lia |]. intro H15.
          apply Z.mod_divide in H15 as [j Hj]; lia. }
    destruct Hround as (R1 & R2 & R3).
    rewrite round_aux_53; [| change (2 ^ 52) with 4503599627370496;
                              change (2 ^ 53) with 9007199254740992; lia ..].
    eexists _, 64. cbn [Z.eqb Pos.eqb]. split; [reflexivity |].
    split; [now right |].
    rewrite Z2Pos.id by lia. split; assumption.
  - (* 54 digits *)
    set (L := if r =? 0 then loc_Exact else loc_Inexact (2 * r ?= 8444249301319680)).
    assert (Hround : 4503599627370496
                     <= round_nearest_even
                          (shr_m (shr_1 (shr_record_of_loc (Z.pos pq) L)))
                          (loc_of_shr_record (shr_1 (shr_record_of_loc (Z.pos pq) L)))
                     < 9007199254740992
                     /\ -30 <= 60 * round_nearest_even
                                      (shr_m (shr_1 (shr_record_of_loc (Z.pos pq) L)))
                                      (loc_of_shr_record
                                         (shr_1 (shr_record_of_loc (Z.pos pq) L)))
                               - 32 * Z.pos m <= 30
                     /\ (Z.pos m mod 15 = 0 ->
                         60 * round_nearest_even
                                (shr_m (shr_1 (shr_record_of_loc (Z.pos pq) L)))
                                (loc_of_shr_record (shr_1 (shr_record_of_loc (Z.pos pq) L)))
                         = 32 * Z.pos m)).
    { unfold L.
      destruct (Z.eqb_spec r 0) as [Hr0 | Hr0];
        [| destruct (Z.compare_spec (2 * r) 8444249301319680) as [Hc | Hc | Hc]];
        (destruct pq as [p | p |];
         cbn [shr_record_of_loc shr_1 shr_m loc_of_shr_record round_nearest_even orb];
         [rewrite (Pos2Z.inj_xI p) in * | rewrite (Pos2Z.inj_xO p) in * | exfalso; lia]);
        try (exfalso; lia);
        (split; [lia |]; split; [lia |]; intro H15;
         apply Z.mod_divide in H15 as [j Hj]; lia). }
    destruct Hround as (R1 & R2 & R3).
    rewrite round_aux_54; [| change (2 ^ 52) with 4503599627370496;
                              change (2 ^ 53) with 9007199254740992;
                              change (2 ^ 54) with 18014398509481984; cbv zeta; try lia ..].
    eexists _, 32. cbn [Z.eqb Pos.eqb]. split; [f_equal; lia |].
    split; [now left |].
    rewrite Z2Pos.id by lia. split; assumption.
Qed.

(** The arithmetic of the final [Math.floor]. *)
Lemma floor_of_rounded_quotient (m M P G : Z) :
  1 <= P -> G = 32 \/ G = 64 -> 0 < m -> m mod P = 0 ->
  -30 <= 60 * M - G * m <= 30 ->
  (m mod 15 = 0 -> 60 * M = G * m) ->
  M / (G * P) = m / P / 60.
Proof.
  intros HP HG Hm Hdiv Hd Hex.
  apply Z.div_exact in Hdiv; [| lia].
  set (n := m / P) in *.
  pose proof (Z.div_mod n 60 ltac:(lia)) as Hn.
  pose proof (Z.mod_pos_bound n 60 ltac:(lia)) as Hr.
  set (k := n / 60) in *. set (r := n mod 60) in *.
  assert (Hm2 : m = 60 * (P * k) + P * r) by (rewrite Hdiv, Hn; ring).
  assert (HB : 0 <= P * r <= 59 * P) by nia.
  destruct (Z.eq_dec r 0) as [Hr0 | Hr0].
  - rewrite Hr0, Z.mul_0_r, Z.add_0_r in Hm2.
    assert (H15 : m mod 15 = 0).
    { rewrite Hm2. replace (60 * (P * k)) with ((4 * (P * k)) * 15) by ring.
      apply Z.mod_mul. lia. }
    specialize (Hex H15).
    assert (EM : M = k * (G * P)) by (destruct HG; subst G; lia).
    rewrite EM. apply Z.div_mul. destruct HG; subst G; lia.
  - assert (HB1 : P <= P * r) by nia.
    symmetry. apply (Z.div_unique_pos M (G * P) k (M - G * P * k)); [| ring].
    destruct HG; subst G; lia.
Qed.

Lemma pow2_ge_1 (k : Z) : 0 <= k -> 1 <= 2 ^ k.
Proof. intro H. change 1 with (2 ^ 0). apply Z.pow_le_mono_r; lia. Qed.

(** A double that holds a positive integer below 2^53 is normal, with a
    mantissa of 53 bits and an exponent between -52 and 0. *)
Lemma integer_double (t : float) (n : Z) :
  Number.integerValue t = Some n -> 0 < n < 2 ^ 53 ->
  exists m e,
    Prim2SF t = S754_finite false m e
    /\ 2 ^ 52 <= Z.pos m < 2 ^ 53 /\ -52 <= e <= 0
    /\ Z.pos m mod 2 ^ (- e) = 0 /\ n = Z.pos m / 2 ^ (- e).
Proof.
  unfold Number.integerValue. intros Hv Hn.
  pose proof (Prim2SF_valid t) as Hval.
  destruct (Prim2SF t) as [s | s | | s m e]; try discriminate Hv.
  - injection Hv as <-. lia.
  - cbn [SpecFloat.valid_binary bounded] in Hval.
    apply andb_true_iff in Hval as [Hcan _].
    unfold canonical_mantissa in Hcan. apply Z.eqb_eq in Hcan.
    pose proof (digits2_pos_bounds m) as HD.
    set (D := Z.pos (digits2_pos m)) in *.
    unfold fexp, SpecFloat.emin, prec, emax in Hcan.
    destruct (Z.leb_spec 0 e) as [He | He].
    + injection Hv as <-.
      pose proof (pow2_ge_1 e He) as HP.
      destruct s; cbn [Number.signed] in *; [nia |].
      assert (D = 53) by lia. 
      assert (E0 : e = 0).
      { destruct (Z.eq_dec e 0) as [|Hne]; [assumption | exfalso].
        assert (2 ^ 1 <= 2 ^ e) by (apply Z.pow_le_mono_r; lia).
        change (2 ^ 1) with 2 in *.
        replace (D - 1) with 52 in HD by lia. nia. }
      subst e. exists m, 0. change (2 ^ (- 0)) with 1.
      rewrite Z.mod_1_r, Z.div_1_r. change (2 ^ 0) with 1 in Hn.
      replace D with 53 in HD by lia. replace (53 - 1) with 52 in HD by lia. 
      repeat split; try lia.
    + pose proof (pow2_ge_1 (- e) ltac:(lia)) as HP.
      destruct (Z.eqb_spec (Number.signed s m mod 2 ^ (- e)) 0) as [Hmod | Hmod];
        [| discriminate Hv].
      injection Hv as <-.
      pose proof Hmod as Hex. apply Z.div_exact in Hex; [| lia].
      destruct s; cbn [Number.signed] in *; [nia |].
      set (P := 2 ^ (- e)) in *. set (n := Z.pos m / P) in *.
      destruct (Z.eq_dec e (-1074)) as [E | E].
      * exfalso. subst e. assert (D <= 53) by lia.
        assert (2 ^ D <= 2 ^ 53) by (apply Z.pow_le_mono_r; lia).
        assert (2 ^ 53 <= P) by (apply Z.pow_le_mono_r; lia).
        nia.
      * assert (D = 53) by lia.
        replace D with 53 in HD by lia. replace (53 - 1) with 52 in HD by lia.
        exists m, e.
        assert (- e <= 52).
        { destruct (Z_le_gt_dec (- e) 52) as [|Hgt]; [assumption | exfalso].
          assert (2 ^ 53 <= P) by (apply Z.pow_le_mono_r; lia). nia. }
        repeat split; try lia; assumption.
Qed.

(** [Math.floor(t / 60)] is the integer quotient for every double [t]
    that holds an integer from 0 to 2^53 - 1. *)
Lemma floor_div_60 (t : float) (n : Z) :
  Number.integerValue t = Some n -> 0 <= n < 2 ^ 53 ->
  Number.floor (t / 60) = Some (n / 60).
Proof.
  intros Hv Hn. unfold Number.floor. rewrite div_spec, Prim2SF_60.
  destruct (Z.eq_dec n 0) as [-> | Hne].
  - unfold Number.integerValue in Hv.
    destruct (Prim2SF t) as [s | s | | s m e]; try discriminate Hv.
    + reflexivity.
    + exfalso. destruct (Z.leb_spec 0 e) as [He | He].
      * injection Hv as Hv. pose proof (pow2_ge_1 e He). destruct s; cbn [Number.signed] in Hv; nia.
      * pose proof (pow2_ge_1 (- e) ltac:(lia)).
        destruct (Z.eqb_spec (Number.signed s m mod 2 ^ (- e)) 0) as [Hmod | Hmod];
          [| discriminate Hv].
        injection Hv as Hv. apply Z.div_exact in Hmod; [| lia].
        rewrite Hv in Hmod. destruct s; cbn [Number.signed] in Hmod; lia.
  - destruct (integer_double t n Hv ltac:(lia)) as (m & e & Ht & Hm & He & Hmod & ->).
    rewrite Ht. destruct (SFdiv_60 m e Hm He) as (M & G & Hdiv & HG & Hd & Hex).
    unfold SF64div. rewrite Hdiv. cbn [Number.signed].
    pose proof (pow2_ge_1 (- e) ltac:(lia)) as HP.
    replace (0 <=? e - (if G =? 64 then 6 else 5)) with false
      by (symmetry; apply Z.leb_gt; destruct (G =? 64); lia).
    f_equal.
    replace (2 ^ (- (e - (if G =? 64 then 6 else 5)))) with (G * 2 ^ (- e)).
    + apply floor_of_rounded_quotient; auto; lia.
    + destruct HG as [-> | ->]; cbn [Z.eqb Pos.eqb].
      * replace (- (e - 5)) with (5 + - e) by lia. rewrite Z.pow_add_r by lia. reflexivity.
      * replace (- (e - 6)) with (6 + - e) by lia. rewrite Z.pow_add_r by lia. reflexivity.
Qed.

End DoubleDivision.

(** *** The texts *)

Section TimerDisplay.

Lemma all_digits_nil : all_digits EmptyString.
Proof. intro r. simpl. now destruct (span_digits r). Qed.

Lemma all_digits_cons (c : ascii) (s : string) :
  is_digit c = true -> all_digits s -> all_digits (String c s).
Proof.
  intros Hc Hs r. simpl. rewrite Hc, (Hs r). reflexivity.
Qed.

Lemma all_digits_app (s t : string) :
  all_digits s -> all_digits t -> all_digits (s ++ t).
Proof.
  intros Hs Ht r.
  assert (Hassoc : forall a b c : string, ((a ++ b) ++ c = a ++ (b ++ c))%string).
  { induction a as [|x a IH]; intros; simpl; [reflexivity | now rewrite IH]. }
  rewrite Hassoc, (Hs (t ++ r)), (Ht r). simpl. now rewrite Hassoc.
Qed.

Lemma all_digits_uint (d : Decimal.uint) : all_digits (NilEmpty.string_of_uint d).
Proof.
  induction d; simpl; try apply all_digits_nil;
    apply all_digits_cons; auto.
Qed.

Lemma all_digits_repeat_zero (k : nat) : all_digits (repeat_char "0" k).
Proof.
  induction k; simpl; [apply all_digits_nil | apply all_digits_cons; auto].
Qed.

Lemma all_digits_padded (n : N) : all_digits (padStart 2 "0" (Number.digits n)).
Proof.
  unfold padStart, Number.digits.
  apply all_digits_app; [apply all_digits_repeat_zero | apply all_digits_uint].
Qed.

Lemma span_digits_stop (s r : string) :
  all_digits s -> span_digits r = (EmptyString, r) -> span_digits (s ++ r) = (s, r).
Proof.
  intros Hs Hr. rewrite (Hs r), Hr. simpl.
  f_equal. clear. induction s; simpl; congruence.
Qed.

Lemma digits_nonempty (n : N) : Number.digits n <> EmptyString.
Proof.
  unfold Number.digits. intro H.
  pose proof (NilEmpty.usu (N.to_uint n)) as Hu. rewrite H in Hu. simpl in Hu.
  injection Hu as Hu.
  pose proof (Unsigned.of_to n) as Hn. rewrite <- Hu in Hn. simpl in Hn.
  subst n. discriminate Hu.
Qed.

Lemma uint_of_string_zeros (k : nat) (s : string) (d : Decimal.uint) :
  NilEmpty.uint_of_string s = Some d ->
  exists d', NilEmpty.uint_of_string (repeat_char "0" k ++ s) = Some d'
             /\ N.of_uint d' = N.of_uint d.
Proof.
  intro H. induction k as [|k [d' [Hd' Hv]]]; simpl.
  - now exists d.
  - exists (Decimal.D0 d'). rewrite Hd'. split; [reflexivity | exact Hv].
Qed.

Lemma read_number_padded (n : N) :
  read_number (padStart 2 "0" (Number.digits n)) = Some n.
Proof.
  unfold padStart.
  set (k := (2 - String.length (Number.digits n))%nat).
  destruct (uint_of_string_zeros k (Number.digits n) (N.to_uint n) (NilEmpty.usu _))
    as [d' [Hd' Hv]].
  assert (Hne : repeat_char "0" k ++ Number.digits n <> EmptyString).
  { destruct (repeat_char "0" k); simpl; [apply digits_nonempty | discriminate]. }
  unfold read_number.
  destruct (repeat_char "0" k ++ Number.digits n) eqn:E; [congruence |].
  rewrite Hd'. simpl. now rewrite Hv, Unsigned.of_to.
Qed.


Lemma string_length_app (s t : string) :
  String.length (s ++ t) = (String.length s + String.length t)%nat.
Proof. induction s; simpl; auto. Qed.




Lemma decode_clock_clockOf (m s : N) : decode_clock (clockOf m s) = Some (m, s).
Proof.
  unfold decode_clock, clockOf.
  rewrite (span_digits_stop _ (":" ++ _) (all_digits_padded _)) by reflexivity.
  simpl strip_prefix.
  replace (padStart 2 "0" (Number.digits s))
    with (padStart 2 "0" (Number.digits s) ++ EmptyString) at 1
    by (generalize (padStart 2 "0" (Number.digits s)); induction s0; simpl; congruence).
  rewrite (span_digits_stop _ EmptyString (all_digits_padded _)) by reflexivity.
  now rewrite !read_number_padded.
Qed.

Lemma strip_prefix_app (p s : string) : strip_prefix p (p ++ s) = Some s.
Proof.
  induction p as [|a p IH]; simpl; [reflexivity |].
  now rewrite Ascii.eqb_refl.
Qed.


Lemma seconds_field_two_chars (k : N) :
  (k < 60)%N -> String.length (padStart 2 "0" (Number.digits k)) = 2%nat.
Proof.
  intro Hk.
  assert (Hall : forallb (fun j => Nat.eqb (String.length
                                              (padStart 2 "0" (Number.digits (N.of_nat j)))) 2)
                   (seq 0 60) = true) by (vm_compute; reflexivity).
  rewrite forallb_forall in Hall.
  specialize (Hall (N.to_nat k)).
  rewrite N2Nat.id in Hall. apply Nat.eqb_eq, Hall, in_seq. lia.
Qed.

(** [toString] on a natural number below 10^21. *)
Lemma toString_of_N (k : N) :
  (k < 10 ^ 21)%N -> Number.toString (Z.of_N k) = Some (Number.digits k).
Proof.
  intro Hk. unfold Number.toString.
  rewrite Z.abs_eq by lia.
  replace (Z.of_N k <? 10 ^ 21)%Z with true by (symmetry; apply Z.ltb_lt; lia).
  replace (Z.of_N k <? 0)%Z with false by (symmetry; apply Z.ltb_ge; lia).
  now rewrite Zabs2N.id.
Qed.

(** The minutes and the seconds [formatTime] and the sentence compute
    from a double that holds a natural number below 2^53. *)
Lemma minutes_and_seconds (t : float) (n : N) :
  Number.integerValue t = Some (Z.of_N n) -> (n < 2 ^ 53)%N ->
  Number.floor (t / 60)%float = Some (Z.of_N (n / 60))
  /\ Number.remainder t 60 = Some (Z.of_N (n mod 60)).
Proof.
  intros Hv Hn. split.
  - rewrite (floor_div_60 t (Z.of_N n) Hv) by lia.
    now rewrite N2Z.inj_div.
  - unfold Number.remainder. rewrite Hv. simpl option_map.
    rewrite Z.rem_mod_nonneg by lia. now rewrite N2Z.inj_mod.
Qed.

Lemma formatTime_safe (t : float) (n : N) :
  Number.integerValue t = Some (Z.of_N n) -> (n < 2 ^ 53)%N ->
  formatTime t = Some (clockOf (n / 60) (n mod 60)).
Proof.
  intros Hv Hn. destruct (minutes_and_seconds t n Hv Hn) as [Hm Hs].
  unfold formatTime. rewrite Hm, Hs.
  assert (n / 60 <= n)%N by (apply N.Div0.div_le_upper_bound; lia).
  assert (n mod 60 < 60)%N by (apply N.mod_lt; discriminate).
  rewrite !toString_of_N by lia. reflexivity.
Qed.



End TimerDisplay.




(** ** The deposit-session hook ([useDepositSession.ts]) *)

Import UseDepositSession.

Local Open Scope Z_scope.

(** *** Equality tests *)

Lemma TxStatus_eqb_eq (a b : TxStatus) : TxStatus_eqb a b = true <-> a = b.
Proof. destruct a, b; simpl; split; congruence. Qed.

Lemma TransactionStatus_eqb_eq (a b : TransactionStatus) :
  TransactionStatus_eqb a b = true <-> a = b.
Proof.
  destruct a as [a|], b as [b|]; simpl; try (split; congruence).
  rewrite TxStatus_eqb_eq. split; congruence.
Qed.


Lemma DepositSession_eqb_eq (a b : DepositSession) :
  DepositSession_eqb a b = true <-> a = b.
Proof.
  destruct a as [i1 s1 t1], b as [i2 s2 t2]. unfold DepositSession_eqb. simpl.
  rewrite !andb_true_iff, !String.eqb_eq, TransactionStatus_eqb_eq.
  split; [intros [[-> ->] ->]; reflexivity | intros [= -> -> ->]; auto].
Qed.

Lemma option_session_eqb_eq (a b : option DepositSession) :
  option_eqb DepositSession_eqb a b = true <-> a = b.
Proof.
  destruct a as [a|], b as [b|]; simpl; try (split; congruence).
  rewrite DepositSession_eqb_eq. split; congruence.
Qed.

Lemma statusDepsChanged_false (prev : option TransactionStatus) (r : State) :
  statusDepsChanged prev r = false <-> prev = Some (transactionStatus r).
Proof.
  destruct prev as [p|]; simpl; [| split; congruence].
  rewrite negb_false_iff, TransactionStatus_eqb_eq. split; congruence.
Qed.

Lemma completionDepsChanged_false (prev : option (Z * TransactionStatus)) (r : State) :
  completionDepsChanged prev r = false
  <-> prev = Some (completionCountdown r, transactionStatus r).
Proof.
  destruct prev as [[c p]|]; simpl; [| split; congruence].
  rewrite negb_false_iff, andb_true_iff, Z.eqb_eq, TransactionStatus_eqb_eq.
  split; [intros [-> ->]; reflexivity | intros [= -> ->]; auto].
Qed.

Lemma expiryDepsChanged_false (prev : option (bool * option DepositSession * Z))
      (r : State) :
  expiryDepsChanged prev r = false
  <-> prev = Some (showQR r, currentSession r, timeLeft r).
Proof.
  destruct prev as [[[q c] t]|]; simpl; [| split; congruence].
  rewrite negb_false_iff, !andb_true_iff, Z.eqb_eq, option_session_eqb_eq, eqb_true_iff.
  split; [intros [[-> ->] ->]; reflexivity | intros [= -> -> ->]; auto].
Qed.

Lemma stale_false (h : Hook) :
  stale h = false
  <-> statusDeps (effects h) = Some (transactionStatus (state h))
      /\ completionDeps (effects h)
         = Some (completionCountdown (state h), transactionStatus (state h))
      /\ expiryDeps (effects h)
         = Some (showQR (state h), currentSession (state h), timeLeft (state h)).
Proof.
  unfold stale. rewrite !orb_false_iff, statusDepsChanged_false,
    completionDepsChanged_false, expiryDepsChanged_false. tauto.
Qed.

(** *** What one render pass does to the state *)

Lemma state_renderPass (h : Hook) :
  state (renderPass h)
  = passState (statusDepsChanged (statusDeps (effects h)) (state h))
              (completionDepsChanged (completionDeps (effects h)) (state h))
              (state h).
Proof. reflexivity. Qed.

Lemma effects_renderPass_deps (h : Hook) :
  statusDeps (effects (renderPass h)) = Some (transactionStatus (state h))
  /\ completionDeps (effects (renderPass h))
     = Some (completionCountdown (state h), transactionStatus (state h))
  /\ expiryDeps (effects (renderPass h))
     = Some (showQR (state h), currentSession (state h), timeLeft (state h)).
Proof. auto. Qed.

(** A pass touches [transactionStatus], [progressPercentage] and
    [completionCountdown] only. *)
Lemma passState_frame (run1 run2 : bool) (r : State) :
  sessionId (passState run1 run2 r) = sessionId r
  /\ currentSession (passState run1 run2 r) = currentSession r
  /\ showQR (passState run1 run2 r) = showQR r
  /\ timeLeft (passState run1 run2 r) = timeLeft r
  /\ isDepositCompleted (passState run1 run2 r) = isDepositCompleted r
  /\ error (passState run1 run2 r) = error r.
Proof.
  unfold passState, completionEffect, statusEffect.
  destruct run1, run2, r as [sid cs qr tl [[]|] pp cc dc er]; simpl;
    destruct (cc <=? 0); simpl; auto 10.
Qed.

(** The only status change a pass can make is CONFIRMED to COMPLETED, and
    it makes it exactly when the completion effect runs with a countdown
    that is not positive. *)
Lemma passState_status (run1 run2 : bool) (r : State) :
  transactionStatus (passState run1 run2 r)
  = if run2 && (completionCountdown r <=? 0)
       && TransactionStatus_eqb (transactionStatus r) (Some CONFIRMED)
    then Some COMPLETED else transactionStatus r.
Proof.
  unfold passState, completionEffect, statusEffect.
  destruct run1, run2, r as [sid cs qr tl [[]|] pp cc dc er]; simpl;
    destruct (cc <=? 0); simpl; auto.
Qed.

Lemma passState_countdown (run1 run2 : bool) (r : State) :
  completionCountdown (passState run1 run2 r)
  = if run1 && TransactionStatus_eqb (transactionStatus r) (Some CONFIRMED)
    then 20 else completionCountdown r.
Proof.
  unfold passState, completionEffect, statusEffect.
  destruct run1, run2, r as [sid cs qr tl [[]|] pp cc dc er]; simpl;
    destruct (cc <=? 0); simpl; auto.
Qed.

Lemma stale_renderPass (h : Hook) :
  stale (renderPass h) = false
  <-> transactionStatus (state (renderPass h)) = transactionStatus (state h)
      /\ completionCountdown (state (renderPass h)) = completionCountdown (state h).
Proof.
  rewrite stale_false.
  destruct (effects_renderPass_deps h) as (-> & -> & ->).
  rewrite state_renderPass.
  destruct (passState_frame
              (statusDepsChanged (statusDeps (effects h)) (state h))
              (completionDepsChanged (completionDeps (effects h)) (state h))
              (state h)) as (_ & -> & -> & -> & _).
  split.
  - intros (H1 & H2 & _). split; congruence.
  - intros [-> ->]. auto.
Qed.

(** The render loop terminates: after two passes no dependency list is
    out of date, whatever the hook looked like before. *)
Lemma settle_two_settles (h : Hook) : stale (settle 2 h) = false.
Proof.
  simpl. destruct (stale h) eqn:E1; [| exact E1].
  destruct (stale (renderPass h)) eqn:E2; [| exact E2].
  apply stale_renderPass. rewrite (state_renderPass (renderPass h)).
  rewrite passState_status, passState_countdown.
  destruct (effects_renderPass_deps h) as (-> & -> & _).
  rewrite state_renderPass.
  set (run1 := statusDepsChanged (statusDeps (effects h)) (state h)).
  set (run2 := completionDepsChanged (completionDeps (effects h)) (state h)).
  unfold statusDepsChanged, completionDepsChanged.
  rewrite !passState_status, !passState_countdown.
  destruct (transactionStatus (state h)) as [[]|]; simpl;
    rewrite ?andb_false_r, ?Z.eqb_refl; simpl; auto.
  destruct run1, run2, (completionCountdown (state h) <=? 0) eqn:E; simpl;
    rewrite ?Z.eqb_refl; simpl; auto.
  all: destruct (completionCountdown (state h) =? 20) eqn:E20; simpl; auto.
  all: rewrite ?andb_false_r; auto.
Qed.

Lemma settle_stable (n : nat) (h : Hook) : stale h = false -> settle n h = h.
Proof. destruct n; simpl; [reflexivity | intros ->; reflexivity]. Qed.

Lemma settle_enough (n : nat) (h : Hook) : settle (2 + n) h = settle 2 h.
Proof.
  pose proof (settle_two_settles h) as H. simpl in *.
  destruct (stale h); [| reflexivity].
  destruct (stale (renderPass h)); [| reflexivity].
  now apply settle_stable.
Qed.

Lemma commit_settles (h : Hook) : stale (commit h) = false.
Proof.
  unfold commit. change 3%nat with (2 + 1)%nat.
  rewrite settle_enough. apply settle_two_settles.
Qed.

(** *** What a commit does to the state *)

Lemma renderPass_status (h : Hook) :
  sameStatusOrCompleted (transactionStatus (state h))
                        (transactionStatus (state (renderPass h))).
Proof.
  rewrite state_renderPass, passState_status. unfold sameStatusOrCompleted.
  destruct (_ && _ && _) eqn:E; [| now left].
  apply andb_true_iff in E as [_ E]. apply TransactionStatus_eqb_eq in E. auto.
Qed.

Lemma settle_status (n : nat) (h : Hook) :
  sameStatusOrCompleted (transactionStatus (state h))
                        (transactionStatus (state (settle n h))).
Proof.
  revert h. induction n as [|n IH]; intro h; simpl; [now left |].
  destruct (stale h); [| now left].
  destruct (renderPass_status h) as [E | [E1 E2]];
    destruct (IH (renderPass h)) as [F | [F1 F2]]; unfold sameStatusOrCompleted;
    try (left; congruence); try (right; split; congruence).
Qed.

Lemma commit_status (h : Hook) :
  sameStatusOrCompleted (transactionStatus (state h))
                        (transactionStatus (state (commit h))).
Proof. apply settle_status. Qed.

Lemma renderPass_frame (h : Hook) : sameFrame (state h) (state (renderPass h)).
Proof. rewrite state_renderPass. apply passState_frame. Qed.

Lemma settle_frame (n : nat) (h : Hook) : sameFrame (state h) (state (settle n h)).
Proof.
  revert h. induction n as [|n IH]; intro h; simpl.
  - repeat split.
  - destruct (stale h); [| repeat split].
    destruct (renderPass_frame h) as (A1 & A2 & A3 & A4 & A5 & A6).
    destruct (IH (renderPass h)) as (B1 & B2 & B3 & B4 & B5 & B6).
    repeat split; congruence.
Qed.

Lemma commit_frame (h : Hook) : sameFrame (state h) (state (commit h)).
Proof. apply settle_frame. Qed.

Lemma settle_rest (n : nat) (h : Hook) :
  inflight (settle n h) = inflight h
  /\ requests (settle n h) = requests h
  /\ returned (settle n h) = returned h.
Proof.
  revert h. induction n as [|n IH]; intro h; simpl; auto.
  destruct (stale h); auto.
  destruct (IH (renderPass h)) as (-> & -> & ->). auto.
Qed.

Lemma commit_settled_id (h : Hook) : stale h = false -> commit h = h.
Proof. apply settle_stable. Qed.

(** With no status set, the effects have nothing to write. *)
Lemma renderPass_state_no_status (h : Hook) :
  transactionStatus (state h) = None -> state (renderPass h) = state h.
Proof.
  intro H. rewrite state_renderPass. unfold passState, statusEffect, completionEffect.
  rewrite H. simpl.
  destruct (statusDepsChanged _ _), (completionDepsChanged _ _),
    (completionCountdown (state h) <=? 0); reflexivity.
Qed.

Lemma settle_state_no_status (n : nat) (h : Hook) :
  transactionStatus (state h) = None -> state (settle n h) = state h.
Proof.
  revert h. induction n as [|n IH]; intros h H; simpl; [reflexivity |].
  destruct (stale h); [| reflexivity].
  rewrite IH; rewrite renderPass_state_no_status; auto.
Qed.

(** *** Runs *)

Section Runs.

Context {constants : Constants}.

Lemma run_snoc (h : Hook) (evs : list Event) (ev : Event) :
  run h (evs ++ [ev]) = step (run h evs) ev.
Proof. unfold run. now rewrite fold_left_app. Qed.

(** An invariant of [handle] and [renderPass] that holds once mounted
    holds after every run. *)
Lemma run_invariant (P : Hook -> Prop) :
  P mounted ->
  (forall h ev, P h -> P (handle h ev)) ->
  (forall h, P h -> P (renderPass h)) ->
  forall evs, P (run mounted evs).
Proof.
  intros H0 Hh Hp evs.
  assert (Hs : forall n h, P h -> P (settle n h)).
  { induction n as [|n IH]; intros h Ph; simpl; auto.
    destruct (stale h); auto. }
  induction evs as [|ev evs IH] using rev_ind; [exact H0 |].
  rewrite run_snoc. unfold step, commit. auto.
Qed.

Lemma run_settled (evs : list Event) : stale (run mounted evs) = false.
Proof.
  induction evs as [|ev evs _] using rev_ind.
  - apply commit_settles.
  - rewrite run_snoc. apply commit_settles.
Qed.

End Runs.

(** *** Numeric bounds kept by every run *)

Lemma getProgressFromStatus_range (st : TransactionStatus) :
  (0 <= getProgressFromStatus st)%Q /\ (getProgressFromStatus st <= 100)%Q.
Proof. destruct st as [[]|]; simpl; split; discriminate. Qed.

Lemma completionTick_progress_cap (c : Z) (s : State) :
  (progressPercentage (completionTick c s) <= 100)%Q.
Proof. unfold completionTick. simpl. apply Q.le_min_r. Qed.

Lemma completionTick_progress_floor (c : Z) (s : State) :
  c <= 20 -> (0 <= progressPercentage (completionTick c s))%Q.
Proof.
  intro H. unfold completionTick. simpl.
  apply Q.min_glb; [| discriminate].
  assert (Hc : (inject_Z c <= 20)%Q) by (rewrite (Zle_Qle c 20) in H; exact H).
  unfold Qdiv. change (/ 30)%Q with (1 # 30)%Q. lra.
Qed.

Lemma expiryTick_timeLeft (s : State) :
  timeLeft (expiryTick s) = Z.max 0 (timeLeft s - 1).
Proof.
  unfold expiryTick. destruct (timeLeft s - 1 <=? 0) eqn:E; simpl.
  - apply Z.leb_le in E. lia.
  - apply Z.leb_gt in E. lia.
Qed.

Lemma lookupInterval_In (id : nat) (t : Timers) (iv : Interval) :
  lookupInterval id t = Some iv -> In (id, iv) (table t).
Proof.
  unfold lookupInterval. destruct (find _ (table t)) as [[i v]|] eqn:E; [| discriminate].
  intros [= <-]. apply find_some in E as [Hin Heq].
  simpl in Heq. apply Nat.eqb_eq in Heq. now subst i.
Qed.

Lemma capturedBounded_clear (id : nat) (t : Timers) :
  capturedBounded t -> capturedBounded (clearInterval id t).
Proof.
  unfold capturedBounded, clearInterval. simpl. rewrite !Forall_forall.
  intros H e He. apply filter_In in He as [He _]. exact (H e He).
Qed.

Lemma capturedBounded_set (cb : Callback) (ms : Z) (t : Timers) :
  capturedBounded t ->
  match cb with CompletionTick c => c <= 20 | _ => True end ->
  capturedBounded (snd (setInterval cb ms t)).
Proof.
  unfold capturedBounded, setInterval. simpl. intros H Hc.
  apply Forall_app. split; [exact H |]. constructor; [exact Hc | constructor].
Qed.

Lemma capturedBounded_effectStep (run : bool) (c : option nat) (body : option Interval)
      (t : Timers) :
  capturedBounded t ->
  match body with
  | Some iv => match callback iv with CompletionTick k => k <= 20 | _ => True end
  | None => True
  end ->
  capturedBounded (snd (effectStep run c body t)).
Proof.
  intros Ht Hb. unfold effectStep, rerunEffect. destruct run; [| exact Ht].
  assert (Ht1 : capturedBounded
                  match c with Some id => clearInterval id t | None => t end)
    by (destruct c; [now apply capturedBounded_clear | exact Ht]).
  destruct body as [iv|]; [| exact Ht1].
  pose proof (capturedBounded_set (callback iv) (delay iv) _ Ht1 Hb) as H.
  destruct (setInterval _ _ _). exact H.
Qed.

Lemma Bounded_renderPass (h : Hook) : Bounded h -> Bounded (renderPass h).
Proof.
  intros (Hc & Ht & Hp0 & Hp1 & Hcap). unfold Bounded.
  rewrite state_renderPass.
  set (run1 := statusDepsChanged _ _). set (run2 := completionDepsChanged _ _).
  destruct (passState_frame run1 run2 (state h)) as (_ & _ & _ & -> & _).
  rewrite passState_countdown.
  repeat split; try tauto.
  - destruct (_ && _); lia.
  - unfold passState, completionEffect, statusEffect.
    destruct run1, run2, (state h) as [sid cs qr tl [[]|] pp cc dc er]; simpl in *;
      destruct (cc <=? 0); simpl; auto; discriminate.
  - unfold passState, completionEffect, statusEffect.
    destruct run1, run2, (state h) as [sid cs qr tl [[]|] pp cc dc er]; simpl in *;
      destruct (cc <=? 0); simpl; auto; discriminate.
  - unfold renderPass. simpl.
    apply capturedBounded_effectStep.
    + apply capturedBounded_effectStep; [exact Hcap |].
      unfold completionEffect. destruct (completionCountdown (state h) <=? 0); simpl; auto.
    + unfold expiryEffect. destruct (expiryIdle (state h)); simpl; auto.
Qed.

Section BoundedRuns.

Context {constants : Constants}.

Lemma Bounded_handle (h : Hook) (ev : Event) : Bounded h -> Bounded (handle h ev).
Proof.
  intros (Hc & Ht & Hp0 & Hp1 & Hcap).
  destruct ev as [ua | k out | | id | k out | id]; simpl.
  - repeat split; auto; tauto.
  - destruct (nth_error (inflight h) k) as [[ua env | ua env]|];
      [| repeat split; auto; tauto ..].
    destruct out as [sess | err]; simpl.
    + repeat split; auto; try lia; try discriminate.
      unfold capturedBounded. simpl. apply Forall_app. split; [exact Hcap |].
      constructor; [exact I | constructor].
    + destruct err; repeat split; simpl; auto; tauto.
  - repeat split; simpl; auto; try lia; discriminate.
  - destruct (lookupInterval id (timers h)) as [iv|] eqn:E;
      [| repeat split; auto; tauto].
    apply lookupInterval_In in E.
    pose proof (proj1 (Forall_forall _ _) Hcap _ E) as Hiv. simpl in Hiv.
    unfold fire. destruct (callback iv) as [c | | ua env].
    + unfold Bounded, withState. cbn [state timers].
      split; [simpl; lia |]. split; [simpl; lia |].
      split; [now apply completionTick_progress_floor |].
      split; [apply completionTick_progress_cap | exact Hcap].
    + unfold Bounded, withState. cbn [state timers].
      rewrite expiryTick_timeLeft.
      unfold expiryTick. destruct (timeLeft (state h) - 1 <=? 0); simpl;
        repeat split; auto; lia.
    + destruct (checkSessionStatus_request env ua); repeat split; simpl; auto; tauto.
  - destruct (nth_error (inflight h) k) as [[ua env | ua env]|];
      [repeat split; auto; tauto | | repeat split; auto; tauto].
    unfold Bounded. simpl. unfold checkSessionStatus_settled.
    destruct out as [[sess|]|]; [| repeat split; auto; tauto ..].
    destruct (txStatus sess) as [tx|]; [| repeat split; simpl; auto; tauto].
    destruct (negb _); [| repeat split; simpl; auto; tauto].
    destruct (TxStatus_eqb tx COMPLETED); repeat split; simpl; auto; tauto.
  - destruct (existsb _ _); [| repeat split; auto; tauto].
    repeat split; simpl; auto; try tauto. now apply capturedBounded_clear.
Qed.

Lemma Bounded_mounted : Bounded mounted.
Proof.
  unfold Bounded. vm_compute. repeat split; try discriminate. constructor.
Qed.

Lemma Bounded_run (evs : list Event) : Bounded (run mounted evs).
Proof.
  apply run_invariant;
    [apply Bounded_mounted | apply Bounded_handle | apply Bounded_renderPass].
Qed.

End BoundedRuns.

(** *** Progress percentage *)

(** C8.  In every state the hook reaches from its mount, whatever the
    sequence of calls, timer ticks and request outcomes, the progress
    percentage lies between 0 and 100.  [getProgressFromStatus] yields 20,
    40, 60, 80 and 100 for the five statuses in order and 0 for none, hence
    only values among 0, 20, 40, 60, 80, 100; the completion countdown
    stores the minimum of its computed value and 100. *)
Theorem C8_progress_between_0_and_100 {constants : Constants} (evs : list Event) :
  ((0 <= progressPercentage (state (run mounted evs)))%Q
   /\ (progressPercentage (state (run mounted evs)) <= 100)%Q)
  /\ (getProgressFromStatus (Some DETECTED) = 20%Q
      /\ getProgressFromStatus (Some PROCESSING) = 40%Q
      /\ getProgressFromStatus (Some CONFIRMING) = 60%Q
      /\ getProgressFromStatus (Some CONFIRMED) = 80%Q
      /\ getProgressFromStatus (Some COMPLETED) = 100%Q
      /\ getProgressFromStatus None = 0%Q)
  /\ (forall st, In (getProgressFromStatus st) [0; 20; 40; 60; 80; 100]%Q)
  /\ (forall c s,
        progressPercentage (completionTick c s)
        = Qmin (80 + ((30 - inject_Z c) / 30) * 20) 100
        /\ (progressPercentage (completionTick c s) <= 100)%Q).
Proof.
  destruct (Bounded_run evs) as (_ & _ & H0 & H1 & _).
  split; [split; assumption |].
  split; [repeat split |].
  split.
  - intros [[]|]; simpl; auto 10.
  - intros c s. split; [reflexivity | apply completionTick_progress_cap].
Qed.

(** *** [resetSession] *)

(** C9.  Whatever state it is applied to, [resetSession] leaves every
    value the hook returns at its initial value (no session id, no session,
    QR hidden, 300 seconds left, no status, progress 0, not completed, no
    error), also once React has rendered again and run the effects; and
    applying it twice gives the same state as applying it once. *)
Theorem C9_resetSession_initial_and_idempotent {constants : Constants}
        (h : Hook) (s : State) :
  outputs (resetSession s) = mkOutputs None None false 300 None 0%Q false None
  /\ outputs (resetSession s) = outputs initialState
  /\ resetSession (resetSession s) = resetSession s
  /\ state (step h CallResetSession) = resetSession (state h)
  /\ outputs (state (step (step h CallResetSession) CallResetSession))
     = outputs (state (step h CallResetSession)).
Proof.
  assert (Hstep : forall h', state (step h' CallResetSession) = resetSession (state h')).
  { intro h'. unfold step, commit. now rewrite settle_state_no_status. }
  repeat split.
  - apply Hstep.
  - now rewrite !Hstep.
Qed.

(** [resetSession] does not write [completionCountdown], which is not
    among the values the hook returns. *)
Example resetSession_keeps_countdown (s : State) :
  completionCountdown (resetSession s) = completionCountdown s.
Proof. reflexivity. Qed.

(** *** Who holds the cancellation of each live interval *)

Lemma In_clearInterval (j : nat) (t : Timers) (x : nat * Interval) :
  In x (table (clearInterval j t)) <-> In x (table t) /\ fst x <> j.
Proof.
  unfold clearInterval. simpl. rewrite filter_In, negb_true_iff, Nat.eqb_neq. tauto.
Qed.

Lemma In_setInterval (cb : Callback) (ms : Z) (t : Timers) (x : nat * Interval) :
  In x (table (snd (setInterval cb ms t)))
  <-> In x (table t) \/ x = (next t, mkInterval cb ms).
Proof.
  unfold setInterval. simpl. rewrite in_app_iff. simpl. intuition congruence.
Qed.

Lemma lookup_clearInterval (i j : nat) (t : Timers) :
  lookupInterval i (clearInterval j t)
  = if Nat.eqb i j then None else lookupInterval i t.
Proof.
  unfold lookupInterval, clearInterval. simpl.
  induction (table t) as [|[k v] l IH]; simpl.
  - now destruct (Nat.eqb i j).
  - destruct (Nat.eqb k j) eqn:Ekj; simpl.
    + rewrite IH. destruct (Nat.eqb i j) eqn:Eij; [reflexivity |].
      apply Nat.eqb_eq in Ekj. subst k.
      rewrite Nat.eqb_sym, Eij. reflexivity.
    + destruct (Nat.eqb k i) eqn:Eki; simpl; [| exact IH].
      apply Nat.eqb_eq in Eki. subst k. now rewrite Ekj.
Qed.

Lemma lookup_cleared (i : nat) (t : Timers) : lookupInterval i (clearInterval i t) = None.
Proof. now rewrite lookup_clearInterval, Nat.eqb_refl. Qed.

Lemma lookup_setInterval (i : nat) (cb : Callback) (ms : Z) (t : Timers) :
  lookupInterval i (snd (setInterval cb ms t))
  = match lookupInterval i t with
    | Some iv => Some iv
    | None => if Nat.eqb (next t) i then Some (mkInterval cb ms) else None
    end.
Proof.
  unfold lookupInterval, setInterval. simpl.
  induction (table t) as [|[k v] l IH]; simpl.
  - now destruct (Nat.eqb (next t) i).
  - destruct (Nat.eqb k i); simpl; [reflexivity | exact IH].
Qed.

Lemma lookup_fresh (i : nat) (t : Timers) :
  (forall x, In x (table t) -> (fst x < i)%nat) -> lookupInterval i t = None.
Proof.
  intro H. destruct (lookupInterval i t) as [iv|] eqn:E; [| reflexivity].
  apply lookupInterval_In in E. apply H in E. simpl in E. lia.
Qed.

Lemma In_lookup (t : Timers) (x : nat * Interval) :
  In x (table t) -> exists iv, lookupInterval (fst x) t = Some iv.
Proof.
  unfold lookupInterval. intro H.
  destruct (find (fun e => Nat.eqb (fst e) (fst x)) (table t)) as [e|] eqn:E.
  - now exists (snd e).
  - exfalso. apply (find_none _ _ E) in H. now rewrite Nat.eqb_refl in H.
Qed.

Lemma TimersOwned_handles_differ (t : Timers) (hc he : option nat) (ret : list nat)
      (i : nat) :
  TimersOwned t hc he ret -> hc = Some i -> he = Some i -> False.
Proof.
  intros (_ & _ & _ & Hc & He) E1 E2.
  destruct (Hc i E1) as [[c Hl] _]. destruct (He i E2) as [Hl' _]. congruence.
Qed.

Ltac split_owned := split; [| split; [| split; [| split]]].

Lemma rerunEffect_eq (c : option nat) (body : option Interval) (t : Timers) :
  rerunEffect c body t
  = match body with
    | Some iv => (Some (next (runCleanup c t)),
                  snd (setInterval (callback iv) (delay iv) (runCleanup c t)))
    | None => (None, runCleanup c t)
    end.
Proof. unfold rerunEffect. now destruct body. Qed.

(** The completion effect runs again. *)
Lemma TimersOwned_rerun_completion (t : Timers) (hc he : option nat) (ret : list nat)
      (body : option Interval) :
  TimersOwned t hc he ret ->
  (forall iv, body = Some iv -> exists c, iv = mkInterval (CompletionTick c) 1000) ->
  TimersOwned (snd (rerunEffect hc body t)) (fst (rerunEffect hc body t)) he ret
  /\ (fst (rerunEffect hc body t) = None <-> body = None).
Proof.
  intros (P1 & P2 & P3 & P4 & P5) Hbody.
  rewrite rerunEffect_eq. set (t1 := runCleanup hc t).
  assert (N1 : next t1 = next t) by (unfold t1; destruct hc; reflexivity).
  assert (I1 : forall x, In x (table t1) ->
                 In x (table t) /\ (forall c, callback (snd x) <> CompletionTick c)).
  { intros x Hx. unfold t1 in Hx. destruct hc as [i|]; simpl in Hx.
    - apply In_clearInterval in Hx as [Hx Hne]. split; [exact Hx |].
      intros c Hc. specialize (P3 x Hx). unfold ownerOf in P3. rewrite Hc in P3.
      congruence.
    - split; [exact Hx |]. intros c Hc. specialize (P3 x Hx).
      unfold ownerOf in P3. rewrite Hc in P3. discriminate. }
  assert (L1 : forall j, he = Some j -> lookupInterval j t1 = lookupInterval j t).
  { intros j Hj. unfold t1. destruct hc as [i|]; [| reflexivity]. simpl.
    rewrite lookup_clearInterval. destruct (Nat.eqb j i) eqn:E; [| reflexivity].
    apply Nat.eqb_eq in E. subst j. exfalso.
    destruct (P4 i eq_refl) as [[c Hl] _]. destruct (P5 i Hj) as [Hl' _].
    congruence. }
  destruct body as [iv|]; cbn [fst snd].
  - destruct (Hbody iv eq_refl) as [c ->]. cbn [callback delay].
    split; [| split; discriminate].
    split_owned.
    + intros x Hx. apply In_setInterval in Hx as [Hx | ->]; simpl; [| lia].
      apply I1 in Hx as [Hx _]. apply P1 in Hx. lia.
    + intros i Hi. apply P2 in Hi. simpl. lia.
    + intros x Hx. apply In_setInterval in Hx as [Hx | ->].
      * destruct (I1 x Hx) as [Hx' Hnc]. specialize (P3 x Hx'). unfold ownerOf in *.
        destruct (callback (snd x)) as [k | |]; [now destruct (Hnc k) | auto ..].
      * unfold ownerOf. simpl. now rewrite N1.
    + intros i [= <-]. split.
      * exists c. rewrite lookup_setInterval, N1, Nat.eqb_refl.
        rewrite lookup_fresh; [reflexivity |].
        intros x Hx. apply I1 in Hx as [Hx _]. apply P1 in Hx. lia.
      * intro Hin. apply P2 in Hin. lia.
    + intros i Hi. rewrite lookup_setInterval, (L1 i Hi).
      destruct (P5 i Hi) as [-> Hn]. auto.
  - split; [| tauto]. split_owned.
    + intros x Hx. apply I1 in Hx as [Hx _]. rewrite N1. auto.
    + intros i Hi. rewrite N1. auto.
    + intros x Hx. destruct (I1 x Hx) as [Hx' Hnc]. specialize (P3 x Hx').
      unfold ownerOf in *.
      destruct (callback (snd x)) as [k | |]; [now destruct (Hnc k) | auto ..].
    + discriminate.
    + intros i Hi. rewrite (L1 i Hi). now destruct (P5 i Hi).
Qed.

(** The expiry effect runs again. *)
Lemma TimersOwned_rerun_expiry (t : Timers) (hc he : option nat) (ret : list nat)
      (body : option Interval) :
  TimersOwned t hc he ret ->
  (forall iv, body = Some iv -> iv = mkInterval ExpiryTick 1000) ->
  TimersOwned (snd (rerunEffect he body t)) hc (fst (rerunEffect he body t)) ret
  /\ (fst (rerunEffect he body t) = None <-> body = None).
Proof.
  intros (P1 & P2 & P3 & P4 & P5) Hbody.
  rewrite rerunEffect_eq. set (t1 := runCleanup he t).
  assert (N1 : next t1 = next t) by (unfold t1; destruct he; reflexivity).
  assert (I1 : forall x, In x (table t1) ->
                 In x (table t) /\ callback (snd x) <> ExpiryTick).
  { intros x Hx. unfold t1 in Hx. destruct he as [i|]; simpl in Hx.
    - apply In_clearInterval in Hx as [Hx Hne]. split; [exact Hx |].
      intros Hc. specialize (P3 x Hx). unfold ownerOf in P3. rewrite Hc in P3.
      congruence.
    - split; [exact Hx |]. intros Hc. specialize (P3 x Hx).
      unfold ownerOf in P3. rewrite Hc in P3. discriminate. }
  assert (L1 : forall j, hc = Some j -> lookupInterval j t1 = lookupInterval j t).
  { intros j Hj. unfold t1. destruct he as [i|]; [| reflexivity]. simpl.
    rewrite lookup_clearInterval. destruct (Nat.eqb j i) eqn:E; [| reflexivity].
    apply Nat.eqb_eq in E. subst j. exfalso.
    destruct (P5 i eq_refl) as [Hl _]. destruct (P4 i Hj) as [[c Hl'] _].
    congruence. }
  destruct body as [iv|]; cbn [fst snd].
  - rewrite (Hbody iv eq_refl). cbn [callback delay].
    split; [| split; discriminate].
    split_owned.
    + intros x Hx. apply In_setInterval in Hx as [Hx | ->]; simpl; [| lia].
      apply I1 in Hx as [Hx _]. apply P1 in Hx. lia.
    + intros i Hi. apply P2 in Hi. simpl. lia.
    + intros x Hx. apply In_setInterval in Hx as [Hx | ->].
      * destruct (I1 x Hx) as [Hx' Hnc]. specialize (P3 x Hx'). unfold ownerOf in *.
        destruct (callback (snd x)) as [k | |]; [auto | now destruct Hnc | auto].
      * unfold ownerOf. simpl. now rewrite N1.
    + intros i Hi. rewrite lookup_setInterval, (L1 i Hi).
      destruct (P4 i Hi) as [[c ->] Hn]. eauto.
    + intros i [= <-]. split.
      * rewrite lookup_setInterval, N1, Nat.eqb_refl.
        rewrite lookup_fresh; [reflexivity |].
        intros x Hx. apply I1 in Hx as [Hx _]. apply P1 in Hx. lia.
      * intro Hin. apply P2 in Hin. lia.
  - split; [| tauto]. split_owned.
    + intros x Hx. apply I1 in Hx as [Hx _]. rewrite N1. auto.
    + intros i Hi. rewrite N1. auto.
    + intros x Hx. destruct (I1 x Hx) as [Hx' Hnc]. specialize (P3 x Hx').
      unfold ownerOf in *.
      destruct (callback (snd x)) as [k | |]; [auto | now destruct Hnc | auto].
    + intros i Hi. rewrite (L1 i Hi). now destruct (P4 i Hi).
    + discriminate.
Qed.

Lemma expiryIdle_idleFor (r : State) :
  expiryIdle r = idleFor (showQR r) (currentSession r) (timeLeft r).
Proof. reflexivity. Qed.

Lemma Owned_renderPass (h : Hook) : Owned h -> Owned (renderPass h).
Proof.
  intros (HT & HC & HE). unfold Owned, renderPass. cbn [timers effects returned
    completionCleanup expiryCleanup completionDeps expiryDeps].
  set (r := state h).
  set (run2 := completionDepsChanged (completionDeps (effects h)) r).
  set (run3 := expiryDepsChanged (expiryDeps (effects h)) r).
  set (e2 := effectStep run2 (completionCleanup (effects h))
                        (snd (completionEffect r)) (timers h)).
  assert (H2 : TimersOwned (snd e2) (fst e2) (expiryCleanup (effects h)) (returned h)
               /\ (fst e2 = None <-> completionCountdown r <= 0)).
  { unfold e2, effectStep. destruct run2 eqn:E2.
    - destruct (TimersOwned_rerun_completion _ _ _ _ (snd (completionEffect r)) HT)
        as [A B].
      + unfold completionEffect. intros iv.
        destruct (completionCountdown r <=? 0); simpl; [discriminate |].
        intros [= <-]. eauto.
      + split; [exact A |]. rewrite B. unfold completionEffect.
        destruct (completionCountdown r <=? 0) eqn:E; simpl.
        * apply Z.leb_le in E. tauto.
        * apply Z.leb_gt in E. split; [discriminate | lia].
    - apply completionDepsChanged_false in E2. rewrite E2 in HC. simpl. tauto. }
  destruct H2 as [HT2 HC2].
  set (e3 := effectStep run3 (expiryCleanup (effects h)) (expiryEffect r) (snd e2)).
  assert (H3 : TimersOwned (snd e3) (fst e2) (fst e3) (returned h)
               /\ (fst e3 = None <-> expiryIdle r = true)).
  { unfold e3, effectStep. destruct run3 eqn:E3.
    - destruct (TimersOwned_rerun_expiry _ _ _ _ (expiryEffect r) HT2) as [A B].
      + unfold expiryEffect. intros iv. destruct (expiryIdle r); congruence.
      + split; [exact A |]. rewrite B. unfold expiryEffect.
        destruct (expiryIdle r); split; congruence.
    - apply expiryDepsChanged_false in E3. rewrite E3 in HE. simpl.
      rewrite expiryIdle_idleFor. tauto. }
  destruct H3 as [HT3 HE3].
  split; [exact HT3 |]. split; [exact HC2 |].
  rewrite <- expiryIdle_idleFor. exact HE3.
Qed.

Section OwnedRuns.

Context {constants : Constants}.

Lemma TimersOwned_clear_returned (t : Timers) (hc he : option nat) (ret : list nat)
      (id : nat) :
  TimersOwned t hc he ret -> In id ret -> TimersOwned (clearInterval id t) hc he ret.
Proof.
  intros (P1 & P2 & P3 & P4 & P5) Hid. split_owned.
  - intros x Hx. apply In_clearInterval in Hx as [Hx _]. now apply P1.
  - exact P2.
  - intros x Hx. apply In_clearInterval in Hx as [Hx _]. now apply P3.
  - intros i Hi. destruct (P4 i Hi) as [[c Hl] Hn]. split; [| exact Hn].
    exists c. rewrite lookup_clearInterval.
    destruct (Nat.eqb i id) eqn:E; [| exact Hl].
    apply Nat.eqb_eq in E. now subst i.
  - intros i Hi. destruct (P5 i Hi) as [Hl Hn]. split; [| exact Hn].
    rewrite lookup_clearInterval.
    destruct (Nat.eqb i id) eqn:E; [| exact Hl].
    apply Nat.eqb_eq in E. now subst i.
Qed.

Lemma TimersOwned_poll (t : Timers) (hc he : option nat) (ret : list nat)
      (ua : string) (env : State) (ms : Z) :
  TimersOwned t hc he ret ->
  TimersOwned (snd (setInterval (PollTick ua env) ms t)) hc he (ret ++ [next t]).
Proof.
  intros (P1 & P2 & P3 & P4 & P5). split_owned.
  - intros x Hx. apply In_setInterval in Hx as [Hx | ->]; simpl; [| lia].
    apply P1 in Hx. lia.
  - intros i Hi. simpl. apply in_app_iff in Hi as [Hi | [<- | []]]; [| lia].
    apply P2 in Hi. lia.
  - intros x Hx. apply In_setInterval in Hx as [Hx | ->].
    + specialize (P3 x Hx). unfold ownerOf in *.
      destruct (callback (snd x)); auto. apply in_app_iff. now left.
    + unfold ownerOf. simpl. apply in_app_iff. right. now left.
  - intros i Hi. destruct (P4 i Hi) as [[c Hl] Hn]. split.
    + exists c. now rewrite lookup_setInterval, Hl.
    + intro Hin. apply in_app_iff in Hin as [Hin | [<- | []]]; [auto |].
      apply lookupInterval_In, P1 in Hl. simpl in Hl. lia.
  - intros i Hi. destruct (P5 i Hi) as [Hl Hn]. split.
    + now rewrite lookup_setInterval, Hl.
    + intro Hin. apply in_app_iff in Hin as [Hin | [<- | []]]; [auto |].
      apply lookupInterval_In, P1 in Hl. simpl in Hl. lia.
Qed.

Lemma Owned_handle (h : Hook) (ev : Event) : Owned h -> Owned (handle h ev).
Proof.
  intros (HT & HC & HE).
  destruct ev as [ua | k out | | id | k out | id]; simpl.
  - split; [exact HT | split; assumption].
  - destruct (nth_error (inflight h) k) as [[ua env | ua env]|];
      [| split; [exact HT | split; assumption] ..].
    destruct out as [sess | err]; simpl.
    + split; [| split; assumption]. simpl.
      apply (TimersOwned_poll _ _ _ _ ua env 5000 HT).
    + split; [exact HT | split; assumption].
  - split; [exact HT | split; assumption].
  - destruct (lookupInterval id (timers h)) as [iv|];
      [| split; [exact HT | split; assumption]].
    unfold fire. destruct (callback iv) as [c | | ua env];
      try (split; [exact HT | split; assumption]).
    destruct (checkSessionStatus_request env ua);
      split; try exact HT; split; assumption.
  - destruct (nth_error (inflight h) k) as [[ua env | ua env]|];
      split; try exact HT; split; assumption.
  - destruct (existsb (Nat.eqb id) (returned h)) eqn:E;
      [| split; [exact HT | split; assumption]].
    split; [| split; assumption]. simpl.
    apply TimersOwned_clear_returned; [exact HT |].
    apply existsb_exists in E as [j [Hj Ej]]. apply Nat.eqb_eq in Ej. now subst j.
Qed.

Lemma Owned_mounted : Owned mounted.
Proof.
  unfold Owned. vm_compute. split; [| split; [| tauto]].
  - split_owned; intros x Hx; solve [destruct Hx | discriminate Hx].
  - split; [discriminate | reflexivity].
Qed.

Lemma Owned_run (evs : list Event) : Owned (run mounted evs).
Proof.
  apply run_invariant; [apply Owned_mounted | apply Owned_handle | apply Owned_renderPass].
Qed.

End OwnedRuns.

(** *** The expiry countdown *)

Lemma expiryIdle_false (s : State) : expiryIdle s = false <-> countingDown s.
Proof.
  unfold expiryIdle, countingDown.
  rewrite !orb_false_iff, negb_false_iff, Z.leb_gt.
  destruct (currentSession s) as [c|].
  - rewrite negb_false_iff, String.eqb_eq. split.
    + intros [[A B] C]. eauto.
    + intros (A & (c' & [= <-] & B) & C). auto.
  - split; [intros [[_ B] _]; discriminate | intros (_ & (c' & B & _) & _); discriminate].
Qed.

Section ExpiryCountdown.

Context {constants : Constants}.

Lemma settled_expiry_handle (h : Hook) :
  Owned h -> stale h = false ->
  (expiryCleanup (effects h) = None <-> expiryIdle (state h) = true).
Proof.
  intros (_ & _ & HE) Hs. apply stale_false in Hs as (_ & _ & Hd).
  rewrite Hd in HE. now rewrite expiryIdle_idleFor.
Qed.

Lemma expiry_interval_iff_countingDown (h : Hook) :
  Owned h -> stale h = false ->
  ((exists id, lookupInterval id (timers h) = Some (mkInterval ExpiryTick 1000))
   <-> countingDown (state h)).
Proof.
  intros Ho Hs. pose proof (settled_expiry_handle h Ho Hs) as Hg.
  destruct Ho as ((_ & _ & P3 & _ & P5) & _ & _).
  rewrite <- expiryIdle_false. split.
  - intros [id Hl]. apply lookupInterval_In, P3 in Hl. unfold ownerOf in Hl.
    simpl in Hl. destruct (expiryIdle (state h)); [| reflexivity].
    destruct Hg as [_ Hg]. rewrite Hg in Hl by reflexivity. discriminate.
  - intro Hi. destruct (expiryCleanup (effects h)) as [i|] eqn:E.
    + exists i. now destruct (P5 i eq_refl).
    + destruct Hg as [Hg _]. rewrite Hg in Hi by reflexivity. discriminate.
Qed.

Lemma expiry_interval_countingDown (h : Hook) (id : nat) (iv : Interval) :
  Owned h -> stale h = false ->
  lookupInterval id (timers h) = Some iv -> callback iv = ExpiryTick ->
  countingDown (state h).
Proof.
  intros Ho Hs Hl Hc. pose proof (settled_expiry_handle h Ho Hs) as Hg.
  destruct Ho as ((_ & _ & P3 & _ & _) & _ & _).
  apply lookupInterval_In, P3 in Hl. unfold ownerOf in Hl. simpl in Hl.
  rewrite Hc in Hl. apply expiryIdle_false.
  destruct (expiryIdle (state h)); [| reflexivity].
  destruct Hg as [_ Hg]. rewrite Hg in Hl by reflexivity. discriminate.
Qed.

Lemma step_expiry_fires (h : Hook) (id : nat) (iv : Interval) :
  lookupInterval id (timers h) = Some iv -> callback iv = ExpiryTick ->
  sameFrame (expiryTick (state h)) (state (step h (IntervalFires id))).
Proof.
  intros Hl Hc. unfold step. simpl. rewrite Hl. unfold fire. rewrite Hc.
  apply (commit_frame (withState expiryTick h)).
Qed.

End ExpiryCountdown.

(** C3.  In every state the hook reaches: an expiry interval is running
    exactly while the QR code is shown for a session whose status is
    PENDING with time left (so not when the QR is hidden, the session is
    absent or not PENDING, or [timeLeft] is zero); [timeLeft] is never
    negative; each tick of that interval lowers [timeLeft] by exactly one,
    and the tick that brings it to zero hides the QR and sets the status of
    the current session to EXPIRED, the other ticks leave both alone.  The
    callback maps an absent session to an absent session. *)
Theorem C3_expiry_countdown {constants : Constants} (evs : list Event) :
  let h := run mounted evs in
  ((exists id, lookupInterval id (timers h) = Some (mkInterval ExpiryTick 1000))
   <-> countingDown (state h))
  /\ 0 <= timeLeft (state h)
  /\ (forall id iv,
        lookupInterval id (timers h) = Some iv -> callback iv = ExpiryTick ->
        let h' := step h (IntervalFires id) in
        countingDown (state h)
        /\ timeLeft (state h') = timeLeft (state h) - 1
        /\ 0 <= timeLeft (state h')
        /\ (timeLeft (state h') = 0 ->
            showQR (state h') = false
            /\ exists c, currentSession (state h) = Some c
                         /\ currentSession (state h')
                            = Some (mkDepositSession (_id c) "EXPIRED" (txStatus c)))
        /\ (0 < timeLeft (state h') ->
            showQR (state h') = showQR (state h)
            /\ currentSession (state h') = currentSession (state h)))
  /\ (forall s, currentSession s = None -> currentSession (expiryTick s) = None).
Proof.
  intro h. subst h.
  pose proof (Owned_run evs) as Ho. pose proof (run_settled evs) as Hs.
  destruct (Bounded_run evs) as (_ & Ht & _).
  split; [now apply expiry_interval_iff_countingDown |].
  split; [lia |].
  split.
  - intros id iv Hl Hc h'.
    pose proof (expiry_interval_countingDown _ id iv Ho Hs Hl Hc) as Hcd.
    destruct (step_expiry_fires _ id iv Hl Hc) as (_ & Fs & Fq & Ft & _).
    fold h' in Fs, Fq, Ft. rewrite Fs, Fq, Ft, expiryTick_timeLeft.
    destruct Hcd as (Hq & (c & Ec & Hp) & Hpos).
    split; [unfold countingDown; eauto |].
    split; [lia |]. split; [lia |].
    unfold expiryTick.
    destruct (timeLeft (state (run mounted evs)) - 1 <=? 0) eqn:E; simpl.
    + split; [| apply Z.leb_le in E; lia].
      intros _. split; [reflexivity |]. exists c. rewrite Ec. auto.
    + apply Z.leb_gt in E. split; [lia | auto].
  - intros s Hn. unfold expiryTick.
    destruct (timeLeft s - 1 <=? 0); simpl; now rewrite Hn.
Qed.

(** A session that nobody pays for expires: after [createSession] the
    polling interval is number 0 and the expiry interval number 1; every
    tick of the expiry interval re-runs its effect, which starts the next
    one, so the ticks carry the numbers 1 to 300. *)
Example session_expires_after_300_ticks :
  outputs (state (run mounted
                    ([CallCreateSession "alice";
                      PostSettles 0 (PostOk (sessionWith None))]
                     ++ map IntervalFires (seq 1 300))))
  = mkOutputs (Some "s1") (Some (mkDepositSession "s1" "EXPIRED" None)) false 0
              None 0%Q false None
  /\ timeLeft (state (run mounted
                        ([CallCreateSession "alice";
                          PostSettles 0 (PostOk (sessionWith None))]
                         ++ map IntervalFires (seq 1 299))))
     = 1.
Proof. vm_compute. split; reflexivity. Qed.

(** *** Intervals and their cancellation *)

Lemma lookup_effectStep_absent (run : bool) (c : option nat) (body : option Interval)
      (t : Timers) (id : nat) :
  (id < next t)%nat -> lookupInterval id t = None ->
  lookupInterval id (snd (effectStep run c body t)) = None
  /\ (next t <= next (snd (effectStep run c body t)))%nat.
Proof.
  intros Hlt Hl. unfold effectStep. destruct run; [| auto].
  rewrite rerunEffect_eq.
  assert (H1 : lookupInterval id (runCleanup c t) = None /\ next (runCleanup c t) = next t).
  { destruct c as [j|]; simpl; [| auto].
    rewrite lookup_clearInterval. now destruct (Nat.eqb id j). }
  destruct H1 as [H1 N1].
  destruct body as [iv|]; cbn [snd].
  - rewrite lookup_setInterval, H1, N1. split.
    + destruct (Nat.eqb (next t) id) eqn:E; [apply Nat.eqb_eq in E; lia | reflexivity].
    + simpl. lia.
  - rewrite N1. auto.
Qed.

Lemma lookup_settle_absent (n : nat) (h : Hook) (id : nat) :
  (id < next (timers h))%nat -> lookupInterval id (timers h) = None ->
  lookupInterval id (timers (settle n h)) = None.
Proof.
  revert h. induction n as [|n IH]; intros h Hlt Hl; simpl; [exact Hl |].
  destruct (stale h); [| exact Hl].
  unfold renderPass at 1.
  set (e2 := effectStep _ (completionCleanup (effects h)) _ (timers h)).
  destruct (lookup_effectStep_absent
              (completionDepsChanged (completionDeps (effects h)) (state h))
              (completionCleanup (effects h)) (snd (completionEffect (state h)))
              (timers h) id Hlt Hl) as [A1 A2]. fold e2 in A1, A2.
  destruct (lookup_effectStep_absent
              (expiryDepsChanged (expiryDeps (effects h)) (state h))
              (expiryCleanup (effects h)) (expiryEffect (state h))
              (snd e2) id ltac:(lia) A1) as [B1 B2].
  apply IH; unfold renderPass; simpl; fold e2; [lia | exact B1].
Qed.

Lemma In_runCleanup (c : option nat) (t : Timers) (x : nat * Interval) :
  In x (table (runCleanup c t)) -> In x (table t) /\ c <> Some (fst x).
Proof.
  destruct c as [j|]; simpl; [| split; [assumption | discriminate]].
  intro H. apply In_clearInterval in H as [H Hne]. split; [exact H | congruence].
Qed.

Lemma unmount_leaves_polls (h : Hook) (id : nat) (iv : Interval) :
  Owned h -> In (id, iv) (table (timers (unmount h))) ->
  (exists ua env, callback iv = PollTick ua env) /\ In id (returned h).
Proof.
  intros ((_ & _ & P3 & _ & _) & _ & _) Hin. unfold unmount in Hin. simpl in Hin.
  apply In_runCleanup in Hin as [Hin He]. apply In_runCleanup in Hin as [Hin Hc].
  specialize (P3 _ Hin). unfold ownerOf in P3. simpl in *.
  destruct (callback iv) as [c | | ua env]; [contradiction .. |]. eauto.
Qed.

Section PollingIntervals.

Context {constants : Constants}.

(** A poll interval survives a render pass. *)
Lemma lookup_effectStep_kept (run : bool) (c : option nat) (body : option Interval)
      (t : Timers) (id : nat) (iv : Interval) :
  lookupInterval id t = Some iv -> c <> Some id ->
  lookupInterval id (snd (effectStep run c body t)) = Some iv.
Proof.
  intros Hl Hc. unfold effectStep. destruct run; [| exact Hl].
  rewrite rerunEffect_eq.
  assert (H1 : lookupInterval id (runCleanup c t) = Some iv).
  { destruct c as [j|]; simpl; [| exact Hl].
    rewrite lookup_clearInterval. destruct (Nat.eqb id j) eqn:E; [| exact Hl].
    apply Nat.eqb_eq in E. congruence. }
  destruct body as [b|]; cbn [snd]; [| exact H1].
  now rewrite lookup_setInterval, H1.
Qed.

Lemma poll_kept_renderPass (h : Hook) (id : nat) (iv : Interval) (ua : string)
      (env : State) :
  Owned h -> lookupInterval id (timers h) = Some iv -> callback iv = PollTick ua env ->
  lookupInterval id (timers (renderPass h)) = Some iv.
Proof.
  intros ((_ & _ & _ & P4 & P5) & _) Hl Hc. unfold renderPass. cbn [timers].
  apply lookup_effectStep_kept.
  - apply lookup_effectStep_kept; [exact Hl |].
    intro E. destruct (P4 id E) as [[c Hl'] _]. rewrite Hl in Hl'.
    injection Hl' as ->. discriminate Hc.
  - intro E. destruct (P5 id E) as [Hl' _]. rewrite Hl in Hl'.
    injection Hl' as ->. discriminate Hc.
Qed.

Lemma poll_kept_settle (n : nat) (h : Hook) (id : nat) (iv : Interval) (ua : string)
      (env : State) :
  Owned h -> lookupInterval id (timers h) = Some iv -> callback iv = PollTick ua env ->
  lookupInterval id (timers (settle n h)) = Some iv.
Proof.
  revert h. induction n as [|n IH]; intros h Ho Hl Hc; simpl; [exact Hl |].
  destruct (stale h); [| exact Hl].
  apply IH; [now apply Owned_renderPass | | exact Hc].
  now apply (poll_kept_renderPass h id iv ua env).
Qed.

Lemma poll_kept_handle (h : Hook) (ev : Event) (id : nat) (iv : Interval) :
  lookupInterval id (timers h) = Some iv -> ev <> CallReturnedCleanup id ->
  lookupInterval id (timers (handle h ev)) = Some iv.
Proof.
  intros Hl Hev. destruct ev as [ua | k out | | j | k out | j]; simpl.
  - exact Hl.
  - destruct (nth_error (inflight h) k) as [[ua env | ua env]|]; [| exact Hl ..].
    destruct out as [sess | err]; simpl; [| exact Hl].
    pose proof (lookup_setInterval id (PollTick ua env) 5000 (timers h)) as L.
    simpl in L. now rewrite L, Hl.
  - exact Hl.
  - destruct (lookupInterval j (timers h)) as [jv|]; [| exact Hl].
    unfold fire. destruct (callback jv) as [c | | ua env]; try exact Hl.
    now destruct (checkSessionStatus_request env ua).
  - now destruct (nth_error (inflight h) k) as [[ua env | ua env]|].
  - destruct (existsb _ _); [| exact Hl]. simpl.
    rewrite lookup_clearInterval. destruct (Nat.eqb id j) eqn:E; [| exact Hl].
    apply Nat.eqb_eq in E. subst j. now destruct Hev.
Qed.

Lemma poll_kept_step (evs : list Event) (ev : Event) (id : nat) (iv : Interval)
      (ua : string) (env : State) :
  lookupInterval id (timers (run mounted evs)) = Some iv ->
  callback iv = PollTick ua env ->
  ev <> CallReturnedCleanup id ->
  lookupInterval id (timers (step (run mounted evs) ev)) = Some iv.
Proof.
  intros Hl Hc Hev. unfold step, commit.
  apply (poll_kept_settle _ _ id iv ua env).
  - apply Owned_handle, Owned_run.
  - now apply poll_kept_handle.
  - exact Hc.
Qed.


(** The effect cleanups that unmounting runs leave a polling interval
    alone. *)
Lemma poll_kept_unmount (h : Hook) (id : nat) (iv : Interval) (ua : string)
      (env : State) :
  Owned h -> lookupInterval id (timers h) = Some iv -> callback iv = PollTick ua env ->
  lookupInterval id (timers (unmount h)) = Some iv.
Proof.
  intros ((_ & _ & _ & P4 & P5) & _) Hl Hc. unfold unmount. cbn [timers].
  assert (K : forall c t, lookupInterval id t = Some iv -> c <> Some id ->
                          lookupInterval id (runCleanup c t) = Some iv).
  { intros [j|] t Ht Hj; simpl; [| exact Ht].
    rewrite lookup_clearInterval. destruct (Nat.eqb id j) eqn:E; [| exact Ht].
    apply Nat.eqb_eq in E. congruence. }
  apply K; [apply K; [exact Hl |] |].
  - intro E. destruct (P4 id E) as [[c Hl'] _]. rewrite Hl in Hl'.
    injection Hl' as ->. discriminate Hc.
  - intro E. destruct (P5 id E) as [Hl' _]. rewrite Hl in Hl'.
    injection Hl' as ->. discriminate Hc.
Qed.

End PollingIntervals.

(** C6, as amended.  In every state the hook reaches, each live interval
    has its cancellation in the hands of its owner: a completion-countdown
    interval is the one the completion effect's cleanup clears, an expiry
    interval the one the expiry effect's cleanup clears, a polling interval
    one whose clearing function [createSession] returned.  Clearing an
    interval removes it.  The cleanup an effect returns clears the interval
    that run of the effect started, so a countdown interval does not
    outlive its effect: when the hook unmounts, no countdown interval is
    left.  A successful [createSession] starts a polling interval of
    5000 ms and returns the function that clears exactly that interval;
    once the caller invokes it the interval stays cleared.  Nothing else
    clears a polling interval: it stays live through unmounting and
    through every event other than the call of its returned function. *)
Theorem C6_every_interval_has_a_cancellation {constants : Constants}
        (evs : list Event) :
  let h := run mounted evs in
  (forall id iv, lookupInterval id (timers h) = Some iv ->
     match callback iv with
     | CompletionTick _ => completionCleanup (effects h) = Some id
     | ExpiryTick => expiryCleanup (effects h) = Some id
     | PollTick _ _ => In id (returned h)
     end)
  /\ (forall id t, lookupInterval id (clearInterval id t) = None)
  /\ (forall c body t,
        match fst (rerunEffect c body t) with
        | Some id =>
            In (id, body) (map (fun e => (fst e, Some (snd e)))
                               (table (snd (rerunEffect c body t))))
            /\ lookupInterval id (runCleanup (Some id) (snd (rerunEffect c body t)))
               = None
        | None => body = None
        end)
  /\ (forall id iv, In (id, iv) (table (timers (unmount h))) ->
        (exists ua env, callback iv = PollTick ua env) /\ In id (returned h))
  /\ (forall ua env sess,
        exists id,
          snd (createSession_settled env ua (PostOk sess) h) = Some id
          /\ lookupInterval id (timers (fst (createSession_settled env ua (PostOk sess) h)))
             = Some (mkInterval (PollTick ua env) 5000)
          /\ In id (returned (fst (createSession_settled env ua (PostOk sess) h))))
  /\ (forall id, In id (returned h) ->
        lookupInterval id (timers (step h (CallReturnedCleanup id))) = None)
  /\ (forall id iv ua env,
        lookupInterval id (timers h) = Some iv -> callback iv = PollTick ua env ->
        lookupInterval id (timers (unmount h)) = Some iv
        /\ (forall ev, ev <> CallReturnedCleanup id ->
              lookupInterval id (timers (step h ev)) = Some iv)).
Proof.
  intro h. subst h. pose proof (Owned_run evs) as Ho.
  split; [| split; [| split; [| split; [| split; [| split]]]]].
  - intros id iv Hl. destruct Ho as ((_ & _ & P3 & _) & _).
    apply lookupInterval_In, P3 in Hl. exact Hl.
  - intros id t. apply lookup_cleared.
  - intros c body t. rewrite rerunEffect_eq. destruct body as [iv|]; cbn [fst snd].
    + split; [| apply lookup_cleared].
      apply in_map_iff. exists (next (runCleanup c t), iv). split; [reflexivity |].
      apply In_setInterval. right. now destruct iv.
    + reflexivity.
  - intros id iv. now apply unmount_leaves_polls.
  - intros ua env sess. exists (next (timers (run mounted evs))). simpl.
    split; [reflexivity |]. split.
    + pose proof (lookup_setInterval (next (timers (run mounted evs)))
                    (PollTick ua env) 5000 (timers (run mounted evs))) as L.
      simpl in L. rewrite L, Nat.eqb_refl.
      rewrite lookup_fresh; [reflexivity |]. now destruct Ho as ((P1 & _) & _).
    + apply in_app_iff. right. now left.
  - intros id Hid. unfold step. simpl.
    assert (E : existsb (Nat.eqb id) (returned (run mounted evs)) = true).
    { apply existsb_exists. exists id. split; [exact Hid | apply Nat.eqb_refl]. }
    rewrite E. apply lookup_settle_absent; simpl.
    + destruct Ho as ((_ & P2 & _) & _). now apply P2.
    + apply lookup_cleared.
  - intros id iv ua env Hl Hc. split.
    + now apply (poll_kept_unmount _ id iv ua env).
    + intros ev Hev. now apply (poll_kept_step evs ev id iv ua env).
Qed.

(** C6, as stated, fails in its conclusion: the polling interval that a
    successful [createSession] started (interval 0) is still live after
    the hook has unmounted, after [resetSession] has ended its session,
    and after a second [createSession] has replaced the session and
    started a polling interval of its own (interval 2). *)
Lemma C6_polling_interval_outlives_its_scope :
  lookupInterval 0 (timers (run mounted (firstn 2 (pollingRun PROCESSING))))
  = Some (mkInterval (PollTick "alice" initialState) 5000)
  /\ lookupInterval 0 (timers (unmount (run mounted (firstn 2 (pollingRun PROCESSING)))))
     = Some (mkInterval (PollTick "alice" initialState) 5000)
  /\ lookupInterval 0
       (timers (run mounted (firstn 2 (pollingRun PROCESSING) ++ [CallResetSession])))
     = Some (mkInterval (PollTick "alice" initialState) 5000)
  /\ currentSession
       (state (run mounted (firstn 2 (pollingRun PROCESSING) ++ [CallResetSession])))
     = None
  /\ lookupInterval 0 (timers (run mounted (firstn 4 (pollingRun PROCESSING))))
     = Some (mkInterval (PollTick "alice" initialState) 5000)
  /\ lookupInterval 2 (timers (run mounted (firstn 4 (pollingRun PROCESSING))))
     = Some (mkInterval
               (PollTick "alice" (state (run mounted (firstn 2 (pollingRun PROCESSING)))))
               5000).
Proof. vm_compute. repeat split; reflexivity. Qed.

(** *** [createSession] *)

Lemma createSession_catch_error (err : Thrown) (s : State) :
  (forall msg, carriesMessage err msg -> error (createSession_catch err s) = Some msg)
  /\ ((forall msg, ~ carriesMessage err msg) ->
      error (createSession_catch err s) = Some "Failed to create deposit session").
Proof.
  split.
  - intros msg (resp & d & -> & Hd & He & Hne). simpl. unfold responseError.
    rewrite Hd, He. destruct msg; [contradiction | reflexivity].
  - intro Hno. destruct err as [|r]; [reflexivity |].
    destruct r as [[d]|]; [| reflexivity].
    destruct d as [[e]|]; [| reflexivity].
    destruct e as [[|c m]|]; try reflexivity.
    exfalso. apply (Hno (String c m)).
    exists (mkErrorResponse (Some (mkErrorData (Some (String c m))))),
           (mkErrorData (Some (String c m))).
    repeat split; discriminate.
Qed.

Lemma createSession_catch_frame (err : Thrown) (s : State) :
  createSession_catch err s = setError (error (createSession_catch err s)) s.
Proof. now destruct err. Qed.

Lemma stale_setError (v : option string) (h : Hook) :
  stale (withState (setError v) h) = stale h.
Proof. reflexivity. Qed.

(** C5.  When the POST of a pending [createSession] call fails, the call
    returns [undefined], the error output becomes the error message of the
    response when the failure carries a non-empty one and "Failed to create
    deposit session" otherwise, and the session id, the session, the QR
    flag, the time left, the transaction status, the progress and the
    completion flag keep the values they had; no interval is started. *)
Theorem C5_createSession_failure {constants : Constants} (evs : list Event)
        (k : nat) (ua : string) (env : State) (err : Thrown) :
  let h := run mounted evs in
  nth_error (inflight h) k = Some (AwaitingPost ua env) ->
  let h' := step h (PostSettles k (PostThrew err)) in
  snd (createSession_settled env ua (PostThrew err) h) = None
  /\ (forall msg, carriesMessage err msg -> error (state h') = Some msg)
  /\ ((forall msg, ~ carriesMessage err msg) ->
      error (state h') = Some "Failed to create deposit session")
  /\ sessionId (state h') = sessionId (state h)
  /\ currentSession (state h') = currentSession (state h)
  /\ showQR (state h') = showQR (state h)
  /\ timeLeft (state h') = timeLeft (state h)
  /\ transactionStatus (state h') = transactionStatus (state h)
  /\ progressPercentage (state h') = progressPercentage (state h)
  /\ isDepositCompleted (state h') = isDepositCompleted (state h)
  /\ timers h' = timers h.
Proof.
  intros h Hk h'.
  assert (E : h' = mkHook (createSession_catch err (state h)) (timers h) (effects h)
                          (removeNth k (inflight h)) (requests h) (returned h)).
  { unfold h', step. simpl. rewrite Hk. simpl.
    apply commit_settled_id. rewrite createSession_catch_frame.
    unfold withState. simpl. exact (run_settled evs). }
  rewrite E. simpl.
  destruct (createSession_catch_error err (state h)) as [A B].
  split; [reflexivity |]. split; [exact A |]. split; [exact B |].
  rewrite createSession_catch_frame. simpl. auto 10.
Qed.

(** C5 at a concrete failure: a call for "alice" whose POST is refused
    with the message "Too many sessions". *)
Lemma C5_createSession_failure_witness :
  nth_error (inflight (run mounted [CallCreateSession "alice"])) 0
  = Some (AwaitingPost "alice" initialState)
  /\ error (state (run mounted [CallCreateSession "alice";
                                PostSettles 0 (PostThrew
                                  (WithResponse (Some (mkErrorResponse
                                    (Some (mkErrorData (Some "Too many sessions")))))))]))
     = Some "Too many sessions".
Proof.
  split; [reflexivity |].
  apply (C5_createSession_failure [CallCreateSession "alice"] 0 "alice" initialState
           (WithResponse (Some (mkErrorResponse
              (Some (mkErrorData (Some "Too many sessions"))))))
           eq_refl).
  exists (mkErrorResponse (Some (mkErrorData (Some "Too many sessions")))),
         (mkErrorData (Some "Too many sessions")).
  repeat split; discriminate.
Defined.

(** *** Which user a session and its polls belong to *)




Section Correlation.

Context {constants : Constants}.







End Correlation.


(** *** How the transaction status moves *)

Section StatusMoves.

Context {constants : Constants}.

Lemma handle_status (h : Hook) (ev : Event) :
  transactionStatus (state (handle h ev)) = transactionStatus (state h)
  \/ (exists k sess tx,
        ev = GetSettles k (GetOk (Some sess)) /\ txStatus sess = Some tx
        /\ transactionStatus (state (handle h ev)) = Some tx)
  \/ (transactionStatus (state (handle h ev)) = None
      /\ (ev = CallResetSession \/ exists k sess, ev = PostSettles k (PostOk sess))).
Proof.
  destruct ev as [ua | k out | | id | k out | id]; simpl.
  - now left.
  - destruct (nth_error (inflight h) k) as [[ua env | ua env]|]; [| now left ..].
    destruct out as [sess | err]; simpl.
    + right. right. split; [reflexivity |]. right. eauto.
    + left. now destruct err.
  - right. right. auto.
  - destruct (lookupInterval id (timers h)) as [iv|]; [| now left].
    unfold fire. destruct (callback iv) as [c | | ua env]; simpl.
    + now left.
    + left. unfold expiryTick. now destruct (timeLeft (state h) - 1 <=? 0).
    + now destruct (checkSessionStatus_request env ua); left.
  - destruct (nth_error (inflight h) k) as [[ua env | ua env]|]; [now left | | now left].
    simpl. destruct out as [[sess|]|]; simpl; [| now left ..].
    destruct (txStatus sess) as [tx|] eqn:E; [| now left].
    destruct (negb _); [| now left].
    right. left. exists k, sess, tx. repeat split; [exact E |].
    now destruct (TxStatus_eqb tx COMPLETED).
  - destruct (existsb _ _); now left.
Qed.

Lemma step_status (h : Hook) (ev : Event) :
  transactionStatus (state (step h ev)) = transactionStatus (state h)
  \/ (transactionStatus (state h) = Some CONFIRMED
      /\ transactionStatus (state (step h ev)) = Some COMPLETED)
  \/ (exists k sess tx,
        ev = GetSettles k (GetOk (Some sess)) /\ txStatus sess = Some tx
        /\ (transactionStatus (state (step h ev)) = Some tx
            \/ (tx = CONFIRMED /\ transactionStatus (state (step h ev)) = Some COMPLETED)))
  \/ (transactionStatus (state (step h ev)) = None
      /\ (ev = CallResetSession \/ exists k sess, ev = PostSettles k (PostOk sess))).
Proof.
  unfold step.
  destruct (commit_status (handle h ev)) as [C | [C1 C2]];
    destruct (handle_status h ev) as [H | [(k & sess & tx & E & T & H) | [H E]]].
  - left. congruence.
  - right. right. left. exists k, sess, tx. repeat split; auto. left. congruence.
  - right. right. right. split; [congruence | exact E].
  - right. left. split; congruence.
  - right. right. left. exists k, sess, tx. repeat split; auto. right.
    split; congruence.
  - congruence.
Qed.

Lemma step_interval_status (h : Hook) (id : nat) :
  sameStatusOrCompleted (transactionStatus (state h))
                        (transactionStatus (state (step h (IntervalFires id)))).
Proof.
  destruct (step_status h (IntervalFires id))
    as [H | [[H1 H2] | [(k & sess & tx & E & _) | [_ [E | (k & sess & E)]]]]];
    try discriminate E.
  - now left.
  - now right.
Qed.

Lemma polledStatuses_snoc (evs : list Event) (ev : Event) :
  polledStatuses (evs ++ [ev]) = (polledStatuses evs ++ polledStatuses [ev])%list.
Proof. unfold polledStatuses. now rewrite flat_map_app. Qed.

Lemma run_status_origin (evs : list Event) :
  match transactionStatus (state (run mounted evs)) with
  | None => True
  | Some tx =>
      In tx (polledStatuses evs)
      \/ (tx = COMPLETED /\ In CONFIRMED (polledStatuses evs))
  end.
Proof.
  induction evs as [|ev evs IH] using rev_ind; [exact I |].
  rewrite run_snoc, polledStatuses_snoc.
  destruct (step_status (run mounted evs) ev)
    as [H | [[H1 H2] | [(k & sess & tx & E & T & H) | [H _]]]].
  - rewrite H. destruct (transactionStatus (state (run mounted evs))); [| exact I].
    destruct IH as [IH | [IH1 IH2]]; [left | right; split; [exact IH1 |]];
      apply in_app_iff; now left.
  - rewrite H2. rewrite H1 in IH. right. split; [reflexivity |].
    apply in_app_iff. left. destruct IH as [IH | [IH _]]; [exact IH | discriminate].
  - assert (Hin : In tx (polledStatuses evs ++ polledStatuses [ev])).
    { apply in_app_iff. right. subst ev. simpl. rewrite T. now left. }
    destruct H as [-> | [-> ->]]; [now left |]. right. auto.
  - now rewrite H.
Qed.

End StatusMoves.

(** C1, as amended.  In the hook the status changes in these ways only: a
    settled poll whose response carries a non-null [txStatus] can set it
    to that [txStatus], and since the reported value is tested for
    inequality only, never for its order, it is adopted whatever its place
    in the chain; the completion effect moves the status from CONFIRMED to
    COMPLETED; a resolved [createSession] and [resetSession] clear it.  So
    a timer tick never moves the status backwards, whereas a polled
    response can.

    The conjuncts, in order: the inequality test as the code makes it
    (against the [transactionStatus] of the render that the suspended
    [checkSessionStatus] call belongs to), with no part played by the
    rank of the reported value; the only move of a commit is CONFIRMED to
    COMPLETED; every step is one of the moves listed; [resetSession] and
    a resolved [createSession] always clear; an interval tick never lowers
    the rank. *)
Theorem C1_status_transitions {constants : Constants} (h : Hook) (ev : Event) :
  (forall k ua env sess tx,
     nth_error (inflight h) k = Some (AwaitingGet ua env) ->
     txStatus sess = Some tx ->
     transactionStatus (state (handle h (GetSettles k (GetOk (Some sess)))))
     = (if TransactionStatus_eqb (Some tx) (transactionStatus env)
        then transactionStatus (state h) else Some tx)
     /\ sameStatusOrCompleted
          (transactionStatus (state (handle h (GetSettles k (GetOk (Some sess))))))
          (transactionStatus (state (step h (GetSettles k (GetOk (Some sess)))))))
  /\ (forall g, sameStatusOrCompleted (transactionStatus (state g))
                                      (transactionStatus (state (commit g))))
  /\ (transactionStatus (state (step h ev)) = transactionStatus (state h)
      \/ (transactionStatus (state h) = Some CONFIRMED
          /\ transactionStatus (state (step h ev)) = Some COMPLETED)
      \/ (exists k sess tx,
            ev = GetSettles k (GetOk (Some sess)) /\ txStatus sess = Some tx
            /\ (transactionStatus (state (step h ev)) = Some tx
                \/ (tx = CONFIRMED
                    /\ transactionStatus (state (step h ev)) = Some COMPLETED)))
      \/ (transactionStatus (state (step h ev)) = None
          /\ (ev = CallResetSession \/ exists k sess, ev = PostSettles k (PostOk sess))))
  /\ transactionStatus (state (step h CallResetSession)) = None
  /\ (forall k ua env sess,
        nth_error (inflight h) k = Some (AwaitingPost ua env) ->
        transactionStatus (state (step h (PostSettles k (PostOk sess)))) = None)
  /\ (forall id,
        (rank (transactionStatus (state h))
         <= rank (transactionStatus (state (step h (IntervalFires id)))))%nat).
Proof.
  assert (Hnone : forall g, transactionStatus (state g) = None ->
                            transactionStatus (state (commit g)) = None).
  { intros g Hg. destruct (commit_status g) as [Hc | [Hc _]]; congruence. }
  split; [| split; [| split; [| split; [| split]]]].
  4: { apply Hnone. reflexivity. }
  4: { intros k ua env sess Hk. apply Hnone. simpl. rewrite Hk. reflexivity. }
  - intros k ua env sess tx Hk Htx. split; [| apply commit_status].
    cbn [handle]. rewrite Hk. cbn [state]. unfold checkSessionStatus_settled.
    rewrite Htx.
    destruct (TransactionStatus_eqb (Some tx) (transactionStatus env)); simpl;
      [reflexivity |].
    now destruct (TxStatus_eqb tx COMPLETED).
  - apply commit_status.
  - apply step_status.
  - intro id. destruct (step_interval_status h id) as [-> | [-> ->]]; simpl; lia.
Qed.

(** C1, as stated, fails: the server reports PROCESSING and then
    DETECTED, and the status held by the hook moves from PROCESSING back
    to DETECTED. *)
Lemma C1_status_moves_backwards :
  transactionStatus (state (run mounted (pollingRun PROCESSING))) = Some PROCESSING
  /\ transactionStatus
       (state (run mounted (pollingRun PROCESSING
                            ++ [IntervalFires 2;
                                GetSettles 0 (GetOk (Some (sessionWith (Some DETECTED))))])))
     = Some DETECTED
  /\ (rank (Some DETECTED) < rank (Some PROCESSING))%nat.
Proof. vm_compute. repeat split; lia. Qed.

(** The same happens with a server that only ever reports CONFIRMED: the
    completion effect moves the hook to COMPLETED, and the next poll
    brings it back to CONFIRMED. *)
Example completed_falls_back_to_confirmed :
  transactionStatus (state (run mounted (pollingRun CONFIRMED))) = Some COMPLETED
  /\ transactionStatus
       (state (run mounted (pollingRun CONFIRMED
                            ++ [IntervalFires 2;
                                GetSettles 0 (GetOk (Some (sessionWith (Some CONFIRMED))))])))
     = Some CONFIRMED.
Proof. vm_compute. split; reflexivity. Qed.

(** C2, as amended.  There are exactly five non-null status values, the
    ones [getProgressFromStatus] and [getStatusMessage] tell apart.  In
    every state the hook reaches, a non-null status is either the
    [txStatus] of a polled response of the run, or it is COMPLETED, set by
    the hook's own completion effect after a polled response reported
    CONFIRMED. *)
Theorem C2_status_values_and_origin {constants : Constants} (evs : list Event) :
  (forall tx : TxStatus, In tx chain)
  /\ NoDup chain /\ List.length chain = 5%nat
  /\ NoDup (map (fun tx => getProgressFromStatus (Some tx)) chain)
  /\ NoDup (map (fun tx => DepositProgressBar.getStatusMessage (Some tx)) chain)
  /\ match transactionStatus (state (run mounted evs)) with
     | None => True
     | Some tx =>
         In tx (polledStatuses evs)
         \/ (tx = COMPLETED /\ In CONFIRMED (polledStatuses evs))
     end.
Proof.
  split; [intros []; simpl; auto 10 |].
  split; [repeat constructor; simpl; intuition discriminate |].
  split; [reflexivity |].
  split; [repeat constructor; simpl; intuition discriminate |].
  split; [repeat constructor; simpl; intuition discriminate |].
  apply run_status_origin.
Qed.

(** C2, as stated, fails: the only status the server ever reported is
    CONFIRMED, yet the hook holds COMPLETED, set by its completion effect;
    it still does once the twenty ticks of the completion countdown
    (intervals 4 to 23) have passed. *)
Lemma C2_completed_not_from_server :
  polledStatuses (pollingRun CONFIRMED) = [CONFIRMED]
  /\ transactionStatus (state (run mounted (pollingRun CONFIRMED))) = Some COMPLETED
  /\ polledStatuses (pollingRun CONFIRMED ++ map IntervalFires (seq 4 20)) = [CONFIRMED]
  /\ completionCountdown
       (state (run mounted (pollingRun CONFIRMED ++ map IntervalFires (seq 4 20)))) = 0
  /\ transactionStatus
       (state (run mounted (pollingRun CONFIRMED ++ map IntervalFires (seq 4 20))))
     = Some COMPLETED.
Proof. vm_compute. repeat split; reflexivity. Qed.

(** *** Polling *)

Lemma poll_returns_early (constants : Constants) (env : State) (ua : string) (g : Hook) :
  isDepositCompleted env = true \/ sessionId env = None \/ currentSession env = None ->
  fire (createSession_poll env ua) g = g.
Proof.
  intro H. unfold fire, createSession_poll. simpl.
  unfold checkSessionStatus_request, checkSessionStatus_returnsEarly.
  destruct H as [-> | [-> | ->]]; simpl; rewrite ?orb_true_r; reflexivity.
Qed.

(** C4, evaluated.  The guard of [checkSessionStatus] does return before
    any request or setter call when the state it reads has the completion
    flag set, no session id or no session.  But the state it reads is the one
    captured when [createSession] was called, not the current one.  After a
    first successful [createSession] the hook has a session and an interval
    of 5000 ms, and no tick of that interval ever sends a request or changes
    anything; and the interval started by a second call still sends its GET
    after a poll has reported COMPLETED and set the completion flag. *)
Theorem C4_polling_reads_captured_state {constants : Constants} :
  (forall env ua g,
     isDepositCompleted env = true \/ sessionId env = None \/ currentSession env = None ->
     fire (createSession_poll env ua) g = g)
  /\ sessionId (state (run mounted (firstn 2 (pollingRun COMPLETED)))) = Some "s1"
  /\ currentSession (state (run mounted (firstn 2 (pollingRun COMPLETED))))
     = Some (sessionWith None)
  /\ isDepositCompleted (state (run mounted (firstn 2 (pollingRun COMPLETED)))) = false
  /\ lookupInterval 0 (timers (run mounted (firstn 2 (pollingRun COMPLETED))))
     = Some (mkInterval (PollTick "alice" initialState) 5000)
  /\ (forall n,
        run (run mounted (firstn 2 (pollingRun COMPLETED))) (repeat (IntervalFires 0) n)
        = run mounted (firstn 2 (pollingRun COMPLETED)))
  /\ isDepositCompleted (state (run mounted (pollingRun COMPLETED))) = true
  /\ transactionStatus (state (run mounted (pollingRun COMPLETED))) = Some COMPLETED
  /\ requests (step (run mounted (pollingRun COMPLETED)) (IntervalFires 2))
     = (requests (run mounted (pollingRun COMPLETED))
        ++ [GET (PROXY_URL ++ "/deposit-sessions/user/" ++ "alice")])%list.
Proof.
  split; [apply poll_returns_early |].
  do 4 (split; [reflexivity |]).
  split.
  - induction n as [|n IH]; [reflexivity |].
    simpl repeat. unfold run in *. simpl fold_left at 1.
    replace (step _ (IntervalFires 0))
      with (fold_left step (firstn 2 (pollingRun COMPLETED)) mounted)
      by (vm_compute; reflexivity).
    exact IH.
  - vm_compute. repeat split.
Qed.

(* ================================================================== *)
(** * Part III: further properties of the same code *)
(* ================================================================== *)

(** ** The hook: ranges of the two countdowns *)




Section CountdownRanges.

Context {constants : Constants}.




Lemma settled_completion_handle (h : Hook) :
  Owned h -> stale h = false ->
  (completionCleanup (effects h) = None <-> completionCountdown (state h) <= 0).
Proof.
  intros (_ & HC & _) Hs. apply stale_false in Hs as (_ & Hd & _).
  now rewrite Hd in HC.
Qed.

Lemma settle_countdown_nonneg (n : nat) (h : Hook) :
  0 <= completionCountdown (state h) -> 0 <= completionCountdown (state (settle n h)).
Proof.
  revert h. induction n as [|n IH]; intros h H; simpl; [exact H |].
  destruct (stale h); [| exact H].
  apply IH. rewrite state_renderPass, passState_countdown.
  destruct (_ && _); lia.
Qed.

Lemma handle_countdown_nonneg (h : Hook) (ev : Event) :
  Owned h -> stale h = false ->
  0 <= completionCountdown (state h) ->
  0 <= completionCountdown (state (handle h ev)).
Proof.
  intros Ho Hs H. destruct ev as [ua | k out | | id | k out | id]; simpl.
  - exact H.
  - destruct (nth_error (inflight h) k) as [[ua env | ua env]|]; [| exact H ..].
    destruct out as [sess | err]; simpl; [exact H | now destruct err].
  - exact H.
  - destruct (lookupInterval id (timers h)) as [iv|] eqn:E; [| exact H].
    unfold fire. destruct (callback iv) as [c | | ua env] eqn:Ec; simpl.
    + pose proof (settled_completion_handle h Ho Hs) as Hg.
      destruct Ho as ((_ & _ & P3 & _) & _).
      apply lookupInterval_In, P3 in E. unfold ownerOf in E. simpl in E.
      rewrite Ec in E.
      assert (completionCountdown (state h) > 0); [| lia].
      destruct (Z_le_gt_dec (completionCountdown (state h)) 0) as [Hle | Hgt];
        [| exact Hgt].
      apply Hg in Hle. congruence.
    + unfold expiryTick. now destruct (timeLeft (state h) - 1 <=? 0).
    + now destruct (checkSessionStatus_request env ua).
  - destruct (nth_error (inflight h) k) as [[ua env | ua env]|]; try exact H.
    simpl. unfold checkSessionStatus_settled.
    destruct out as [[sess|]|]; try exact H.
    destruct (txStatus sess) as [tx|]; [| exact H].
    destruct (negb _); [| exact H]. now destruct (TxStatus_eqb tx COMPLETED).
  - now destruct (existsb _ _).
Qed.

Lemma countdown_nonneg_run (evs : list Event) :
  0 <= completionCountdown (state (run mounted evs)).
Proof.
  induction evs as [|ev evs IH] using rev_ind; [vm_compute; discriminate |].
  rewrite run_snoc. unfold step, commit. apply settle_countdown_nonneg.
  apply handle_countdown_nonneg; [apply Owned_run | apply run_settled | exact IH].
Qed.

End CountdownRanges.

(** X1.  In every state the hook reaches, the completion countdown lies
    between 0 and 20 and the time left between 0 and 300: neither
    countdown runs below zero, and nothing raises one above its start. *)
Theorem X1_countdowns_in_range {constants : Constants} (evs : list Event) :
  0 <= completionCountdown (state (run mounted evs)) <= 20
  /\ 0 <= timeLeft (state (run mounted evs)) <= 300.
Proof.
  destruct (Bounded_run evs) as (Hc & Ht & _).
  pose proof (countdown_nonneg_run evs). lia.
Qed.



(** ** The hook: the completion flag, polls and requests *)

Section FlagAndPolls.

Context {constants : Constants}.

Lemma handle_flag (h : Hook) (ev : Event) :
  isDepositCompleted (state (handle h ev)) = isDepositCompleted (state h)
  \/ isDepositCompleted (state (handle h ev)) = false
  \/ (exists k sess,
        ev = GetSettles k (GetOk (Some sess)) /\ txStatus sess = Some COMPLETED).
Proof.
  destruct ev as [ua | k out | | id | k out | id]; simpl.
  - now left.
  - destruct (nth_error (inflight h) k) as [[ua env | ua env]|]; [| now left ..].
    destruct out as [sess | err]; simpl; [right; now left | left; now destruct err].
  - right. now left.
  - destruct (lookupInterval id (timers h)) as [iv|]; [| now left].
    unfold fire. destruct (callback iv) as [c | | ua env]; simpl.
    + now left.
    + left. unfold expiryTick. now destruct (timeLeft (state h) - 1 <=? 0).
    + now destruct (checkSessionStatus_request env ua); left.
  - destruct (nth_error (inflight h) k) as [[ua env | ua env]|]; [now left | | now left].
    simpl. destruct out as [[sess|]|]; simpl; [| now left ..].
    destruct (txStatus sess) as [tx|] eqn:E; [| now left].
    destruct (negb _); [| now left].
    destruct tx; simpl; try (now left).
    right. right. eauto.
  - destruct (existsb _ _); now left.
Qed.

Lemma step_flag (h : Hook) (ev : Event) :
  isDepositCompleted (state (step h ev)) = isDepositCompleted (state (handle h ev)).
Proof. unfold step. now destruct (commit_frame (handle h ev)) as (_ & _ & _ & _ & F & _). Qed.

Lemma run_flag_origin (evs : list Event) :
  isDepositCompleted (state (run mounted evs)) = true ->
  In COMPLETED (polledStatuses evs).
Proof.
  induction evs as [|ev evs IH] using rev_ind; [vm_compute; discriminate |].
  rewrite run_snoc, polledStatuses_snoc, step_flag. intro H.
  apply in_app_iff.
  destruct (handle_flag (run mounted evs) ev) as [E | [E | (k & sess & -> & T)]].
  - left. apply IH. congruence.
  - congruence.
  - right. simpl. rewrite T. now left.
Qed.

Lemma requests_handle (h : Hook) (ev : Event) :
  count isPOST (requests (handle h ev))
  = (count isPOST (requests h) + count isCallCreateSession [ev])%nat
  /\ (count isGET (requests (handle h ev))
      <= count isGET (requests h) + count isIntervalFires [ev])%nat.
Proof.
  unfold count.
  destruct ev as [ua | k out | | id | k out | id]; simpl.
  - rewrite !filter_app, !length_app. simpl. lia.
  - destruct (nth_error (inflight h) k) as [[ua env | ua env]|]; [| lia ..].
    destruct out as [sess | err]; simpl; lia.
  - lia.
  - destruct (lookupInterval id (timers h)) as [iv|]; [| lia].
    unfold fire. destruct (callback iv) as [c | | ua env]; simpl; try lia.
    unfold checkSessionStatus_request.
    destruct (checkSessionStatus_returnsEarly env); simpl; [lia |].
    rewrite !filter_app, !length_app. simpl. lia.
  - destruct (nth_error (inflight h) k) as [[ua env | ua env]|]; simpl; lia.
  - destruct (existsb _ _); simpl; lia.
Qed.

End FlagAndPolls.

(** X2.  In every state the hook reaches, the completion flag is set only
    if a polled response of the run reported COMPLETED: the local move
    from CONFIRMED to COMPLETED never sets it. *)
Theorem X2_completed_flag_needs_polled_completed {constants : Constants}
        (evs : list Event) :
  isDepositCompleted (state (run mounted evs)) = true ->
  In COMPLETED (polledStatuses evs).
Proof. apply run_flag_origin. Qed.

(** X2 on the run whose poll reports COMPLETED. *)
Lemma X2_completed_flag_witness :
  isDepositCompleted (state (run mounted (pollingRun COMPLETED))) = true
  /\ In COMPLETED (polledStatuses (pollingRun COMPLETED)).
Proof.
  assert (H : isDepositCompleted (state (run mounted (pollingRun COMPLETED))) = true)
    by (vm_compute; reflexivity).
  split; [exact H |].
  exact (X2_completed_flag_needs_polled_completed (pollingRun COMPLETED) H).
Defined.

(** X3.  A settled poll never writes the session id, the QR flag, the time
    left or the error, whatever the outcome; and when the request failed
    or answered with no session, the hook is left exactly as it was except
    that the suspended call is gone: the failure is not reported and
    nothing is retried. *)
Theorem X3_poll_outcomes_leave_the_rest {constants : Constants} (evs : list Event)
        (k : nat) (outcome : GetOutcome) :
  sessionId (state (step (run mounted evs) (GetSettles k outcome)))
  = sessionId (state (run mounted evs))
  /\ showQR (state (step (run mounted evs) (GetSettles k outcome)))
     = showQR (state (run mounted evs))
  /\ timeLeft (state (step (run mounted evs) (GetSettles k outcome)))
     = timeLeft (state (run mounted evs))
  /\ error (state (step (run mounted evs) (GetSettles k outcome)))
     = error (state (run mounted evs))
  /\ (outcome = GetThrew \/ outcome = GetOk None ->
      state (step (run mounted evs) (GetSettles k outcome)) = state (run mounted evs)
      /\ timers (step (run mounted evs) (GetSettles k outcome))
         = timers (run mounted evs)
      /\ requests (step (run mounted evs) (GetSettles k outcome))
         = requests (run mounted evs)).
Proof.
  set (h := run mounted evs).
  assert (F : sessionId (state (handle h (GetSettles k outcome))) = sessionId (state h)
              /\ showQR (state (handle h (GetSettles k outcome))) = showQR (state h)
              /\ timeLeft (state (handle h (GetSettles k outcome))) = timeLeft (state h)
              /\ error (state (handle h (GetSettles k outcome))) = error (state h)).
  { simpl. unfold checkSessionStatus_settled.
    repeat match goal with
           | |- context [match ?x with _ => _ end] => destruct x
           end; simpl; auto. }
  destruct F as (F1 & F3 & F4 & F6).
  destruct (commit_frame (handle h (GetSettles k outcome))) as (G1 & _ & G3 & G4 & _ & G6).
  unfold step.
  split; [congruence |]. split; [congruence |]. split; [congruence |].
  split; [congruence |].
  intro Ho.
  assert (E : commit (handle h (GetSettles k outcome)) = handle h (GetSettles k outcome)).
  { apply commit_settled_id. pose proof (run_settled evs) as Hs. fold h in Hs.
    simpl. destruct (nth_error (inflight h) k) as [[ua env | ua env]|]; try exact Hs.
    destruct Ho as [-> | ->]; exact Hs. }
  rewrite E. simpl.
  destruct (nth_error (inflight h) k) as [[ua env | ua env]|]; auto.
  destruct Ho as [-> | ->]; auto.
Qed.

(** X9.  The hook sends a request only when asked to: in every run the
    number of POSTs sent equals the number of [createSession] calls, and
    the number of GETs is at most the number of interval ticks. *)
Theorem X9_requests_match_calls_and_ticks {constants : Constants} (evs : list Event) :
  count isPOST (requests (run mounted evs)) = count isCallCreateSession evs
  /\ (count isGET (requests (run mounted evs)) <= count isIntervalFires evs)%nat.
Proof.
  induction evs as [|ev evs [IH1 IH2]] using rev_ind; [vm_compute; auto |].
  rewrite run_snoc. unfold step, commit.
  destruct (settle_rest 3 (handle (run mounted evs) ev)) as (_ & -> & _).
  destruct (requests_handle (run mounted evs) ev) as [H1 H2].
  unfold count in *. rewrite !filter_app, !length_app. lia.
Qed.

(** ** The hook: a successful [createSession] *)

(** X4.  When the POST of a pending [createSession] call succeeds, the
    hook's outputs are those of a fresh session whatever they were before:
    the returned session and its id, QR shown, 300 seconds left, no status,
    progress 0, not completed, no error; the completion countdown is not
    reset.  The expiry countdown then runs exactly when the status of the
    returned session is PENDING. *)
Theorem X4_createSession_success {constants : Constants} (evs : list Event)
        (k : nat) (ua : string) (env : State) (sess : DepositSession) :
  nth_error (inflight (run mounted evs)) k = Some (AwaitingPost ua env) ->
  outputs (state (step (run mounted evs) (PostSettles k (PostOk sess))))
  = mkOutputs (Some (_id sess)) (Some sess) true 300 None 0%Q false None
  /\ completionCountdown (state (step (run mounted evs) (PostSettles k (PostOk sess))))
     = completionCountdown (state (run mounted evs))
  /\ ((exists id,
         lookupInterval id (timers (step (run mounted evs) (PostSettles k (PostOk sess))))
         = Some (mkInterval ExpiryTick 1000))
      <-> status sess = "PENDING").
Proof.
  intro Hk.
  assert (E : state (step (run mounted evs) (PostSettles k (PostOk sess)))
              = createSession_resolved sess (state (run mounted evs))).
  { unfold step, commit. rewrite settle_state_no_status; simpl; rewrite Hk; reflexivity. }
  split; [now rewrite E |]. split; [now rewrite E |].
  rewrite <- run_snoc.
  rewrite (expiry_interval_iff_countingDown _ (Owned_run _) (run_settled _)).
  rewrite run_snoc, E. unfold countingDown. simpl. split.
  - intros (_ & (c & [= <-] & H) & _). exact H.
  - intro H. split; [reflexivity |]. split; [eauto | lia].
Qed.

(** X4 for a first call whose POST answers with a PENDING session. *)
Lemma X4_createSession_success_witness :
  nth_error (inflight (run mounted [CallCreateSession "alice"])) 0
  = Some (AwaitingPost "alice" initialState)
  /\ outputs (state (step (run mounted [CallCreateSession "alice"])
                          (PostSettles 0 (PostOk (sessionWith None)))))
     = mkOutputs (Some "s1") (Some (sessionWith None)) true 300 None 0%Q false None.
Proof.
  assert (H : nth_error (inflight (run mounted [CallCreateSession "alice"])) 0
              = Some (AwaitingPost "alice" initialState))
    by (vm_compute; reflexivity).
  split; [exact H |].
  apply (X4_createSession_success [CallCreateSession "alice"] 0 "alice" initialState
           (sessionWith None) H).
Defined.

(** ** [DepositTimer.tsx]: more on [formatTime] *)

(** X11.  [formatTime] never shows two different numbers of seconds as
    the same clock, as long as they are integers below 2^53. *)
Theorem X11_formatTime_injective (ta tb : float) (a b : N) :
  Number.integerValue ta = Some (Z.of_N a) ->
  Number.integerValue tb = Some (Z.of_N b) ->
  (a < 2 ^ 53)%N -> (b < 2 ^ 53)%N ->
  formatTime ta = formatTime tb -> a = b.
Proof.
  intros Ha Hb La Lb H.
  rewrite (formatTime_safe ta a), (formatTime_safe tb b) in H by assumption.
  injection H as H.
  pose proof (decode_clock_clockOf (a / 60) (a mod 60)) as D.
  rewrite H, decode_clock_clockOf in D. injection D as Hd Hm.
  rewrite (N.div_mod a 60), (N.div_mod b 60) by discriminate. congruence.
Qed.

(** X11 at 299 seconds, written in two ways. *)
Lemma X11_formatTime_injective_witness :
  formatTime 299 = formatTime (4 * 60 + 59) /\ (299 = 4 * 60 + 59)%N.
Proof.
  assert (Ha : Number.integerValue 299 = Some (Z.of_N 299)) by (vm_compute; reflexivity).
  assert (Hb : Number.integerValue (4 * 60 + 59) = Some (Z.of_N (4 * 60 + 59)))
    by (vm_compute; reflexivity).
  assert (La : (299 < 2 ^ 53)%N) by (vm_compute; reflexivity).
  assert (Lb : (4 * 60 + 59 < 2 ^ 53)%N) by (vm_compute; reflexivity).
  assert (H : formatTime 299 = formatTime (4 * 60 + 59)) by (vm_compute; reflexivity).
  split; [exact H |].
  exact (X11_formatTime_injective 299 (4 * 60 + 59) 299 (4 * 60 + 59) Ha Hb La Lb H).
Defined.

Lemma clockOf_five_chars (n : N) :
  (n < 3600)%N -> String.length (clockOf (n / 60) (n mod 60)) = 5%nat.
Proof.
  intro H. unfold clockOf.
  rewrite !string_length_app.
  rewrite !seconds_field_two_chars; [reflexivity | |].
  - apply N.mod_lt. discriminate.
  - apply N.Div0.div_lt_upper_bound. exact H.
Qed.

(** X12.  In every state the hook reaches, the clock [formatTime] makes of
    the number that holds [timeLeft] has exactly five characters and reads
    as at most five minutes, with the seconds below sixty: between 00:00
    and 05:00. *)
Theorem X12_reachable_clock {constants : Constants} (evs : list Event) (t : float) :
  Number.integerValue t = Some (timeLeft (state (run mounted evs))) ->
  exists c,
    formatTime t = Some c
    /\ String.length c = 5%nat
    /\ exists m s,
         decode_clock c = Some (m, s)
         /\ (60 * m + s <= 300)%N /\ (s < 60)%N
         /\ Z.of_N (60 * m + s) = timeLeft (state (run mounted evs)).
Proof.
  intro Hv. destruct (Bounded_run evs) as (_ & Ht & _).
  set (tl := timeLeft (state (run mounted evs))) in *.
  assert (Hv' : Number.integerValue t = Some (Z.of_N (Z.to_N tl)))
    by (rewrite Z2N.id by lia; exact Hv).
  exists (clockOf (Z.to_N tl / 60) (Z.to_N tl mod 60)).
  split; [apply formatTime_safe; [exact Hv' | lia] |].
  split; [apply clockOf_five_chars; lia |].
  exists (Z.to_N tl / 60)%N, (Z.to_N tl mod 60)%N.
  split; [apply decode_clock_clockOf |].
  rewrite <- N.div_mod by discriminate.
  repeat split; [lia | apply N.mod_lt; discriminate | lia].
Qed.

(** X12 right after mounting, when 300 seconds are left. *)
Lemma X12_reachable_clock_witness :
  Number.integerValue 300 = Some (timeLeft (state (run mounted [])))
  /\ exists c, formatTime 300 = Some c /\ String.length c = 5%nat.
Proof.
  assert (Hv : Number.integerValue 300 = Some (timeLeft (state (run mounted []))))
    by (vm_compute; reflexivity).
  split; [exact Hv |].
  destruct (X12_reachable_clock [] 300 Hv) as (c & Hc & Hl & _).
  exists c. split; assumption.
Defined.

(** ** [DepositProgressBar.tsx]: the component and its transaction link *)

Lemma substring_take_drop (n m : nat) (s : string) :
  String.substring n m s = takeChars m (dropChars n s).
Proof.
  revert n m. induction s as [|c s IH]; intros [|n] [|m]; simpl; try reflexivity.
  - now rewrite (IH 0%nat m).
  - apply IH.
  - apply IH.
Qed.

Lemma takeChars_length (n : nat) (s : string) :
  String.length (takeChars n s) = Nat.min n (String.length s).
Proof. revert s. induction n as [|n IH]; intros [|c s]; simpl; auto. Qed.

Lemma dropChars_length (n : nat) (s : string) :
  String.length (dropChars n s) = (String.length s - n)%nat.
Proof. revert s. induction n as [|n IH]; intros [|c s]; simpl; auto. Qed.

Lemma takeChars_all (n : nat) (s : string) :
  (String.length s <= n)%nat -> takeChars n s = s.
Proof.
  revert s. induction n as [|n IH]; intros [|c s] H; simpl in *; try reflexivity.
  - lia.
  - rewrite IH; [reflexivity | lia].
Qed.

Lemma take_drop_chars (n : nat) (s : string) : takeChars n s ++ dropChars n s = s.
Proof. revert s. induction n as [|n IH]; intros [|c s]; simpl; try reflexivity. now rewrite IH. Qed.

Lemma dropChars_dropChars (a b : nat) (s : string) :
  dropChars a (dropChars b s) = dropChars (b + a) s.
Proof.
  revert s. induction b as [|b IH]; intros s; simpl; [reflexivity |].
  destruct s as [|c s]; [now destruct a | apply IH].
Qed.

Lemma abbreviateHash_take_drop (h : string) :
  ProgressBar.abbreviateHash h
  = takeChars 10 h ++ "..." ++ dropChars (String.length h - 8) h.
Proof.
  unfold ProgressBar.abbreviateHash, ProgressBar.substring. cbv zeta.
  rewrite !substring_take_drop.
  set (len := String.length h).
  replace (Z.to_nat (Z.min (Z.min (Z.max 0 0) (Z.of_nat len))
                           (Z.min (Z.max 10 0) (Z.of_nat len)))) with 0%nat by lia.
  replace (Z.to_nat (Z.max (Z.min (Z.max 0 0) (Z.of_nat len))
                           (Z.min (Z.max 10 0) (Z.of_nat len))
                     - Z.min (Z.min (Z.max 0 0) (Z.of_nat len))
                             (Z.min (Z.max 10 0) (Z.of_nat len))))
    with (Nat.min 10 len) by lia.
  replace (Z.to_nat (Z.min (Z.min (Z.max (Z.of_nat len - 8) 0) (Z.of_nat len))
                           (Z.of_nat len)))
    with (len - 8)%nat by lia.
  replace (Z.to_nat (Z.max (Z.min (Z.max (Z.of_nat len - 8) 0) (Z.of_nat len))
                           (Z.of_nat len)
                     - Z.min (Z.min (Z.max (Z.of_nat len - 8) 0) (Z.of_nat len))
                             (Z.of_nat len)))
    with (Nat.min 8 len) by lia.
  simpl dropChars at 1.
  f_equal; [| f_equal].
  - destruct (Nat.le_ge_cases 10 len) as [H | H].
    + now rewrite Nat.min_l.
    + rewrite Nat.min_r by exact H. unfold len.
      rewrite !takeChars_all; [reflexivity | exact H | lia].
  - apply takeChars_all. rewrite dropChars_length. fold len. lia.
Qed.

(** X13.  The progress bar shows nothing without a status and a link only
    for a non-empty transaction hash; the link points at the full hash and
    its text is the first ten characters, three dots and the last eight:
    never more than 21 characters, and exactly 21 once the hash has ten.
    A hash of at most eight characters is not shortened but shown twice
    around the dots. *)
Theorem X13_progress_bar_link (status : TransactionStatus) (progress : Q)
        (txHash : option string) :
  (ProgressBar.DepositProgressBar status progress txHash = None <-> status = None)
  /\ (forall v, ProgressBar.DepositProgressBar status progress txHash = Some v ->
        ProgressBar.statusMessage v = DepositProgressBar.getStatusMessage status
        /\ ProgressBar.barWidth v = progress
        /\ (ProgressBar.txLink v = None <-> txHash = None \/ txHash = Some EmptyString)
        /\ (forall l, ProgressBar.txLink v = Some l ->
              exists h, txHash = Some h
                        /\ strip_prefix "https://etherscan.io/tx/" (ProgressBar.href l)
                           = Some h
                        /\ ProgressBar.linkText l = ProgressBar.abbreviateHash h))
  /\ (forall h,
        ProgressBar.abbreviateHash h
        = takeChars 10 h ++ "..." ++ dropChars (String.length h - 8) h
        /\ String.length (ProgressBar.abbreviateHash h)
           = (Nat.min 10 (String.length h) + 3 + Nat.min 8 (String.length h))%nat
        /\ ((String.length h <= 8)%nat ->
            ProgressBar.abbreviateHash h = h ++ "..." ++ h)).
Proof.
  split; [| split].
  - destruct status; simpl; split; congruence.
  - intros v Hv. destruct status as [st|]; [| discriminate]. simpl in Hv.
    injection Hv as <-. simpl. split; [reflexivity |]. split; [reflexivity |].
    destruct txHash as [[|c r]|]; simpl.
    + split; [split; auto | intros l H; discriminate].
    + split; [split; [discriminate | intros [H | H]; discriminate] |].
      intros l [= <-]. exists (String c r). simpl.
      split; [reflexivity |]. split; [| reflexivity].
      apply (strip_prefix_app "https://etherscan.io/tx/" (String c r)).
    + split; [split; auto | intros l H; discriminate].
  - intro h. rewrite abbreviateHash_take_drop.
    split; [reflexivity |]. split.
    + rewrite !string_length_app, takeChars_length, dropChars_length.
      change (String.length "...") with 3%nat. lia.
    + intro H. rewrite takeChars_all by lia.
      replace (String.length h - 8)%nat with 0%nat by lia. reflexivity.
Qed.

(** X7.  For a transaction hash of at least 18 characters the link text
    keeps the first ten and the last eight characters and replaces
    exactly the characters between them by three dots. *)
Theorem X7_long_hash_abbreviated (h : string) :
  (18 <= String.length h)%nat ->
  exists first middle last,
    h = first ++ middle ++ last
    /\ ProgressBar.abbreviateHash h = first ++ "..." ++ last
    /\ String.length first = 10%nat /\ String.length last = 8%nat
    /\ String.length middle = (String.length h - 18)%nat.
Proof.
  intro H. rewrite abbreviateHash_take_drop.
  exists (takeChars 10 h), (takeChars (String.length h - 18) (dropChars 10 h)),
         (dropChars (String.length h - 8) h).
  split; [| split; [reflexivity |]].
  - replace (dropChars (String.length h - 8) h)
      with (dropChars (String.length h - 18) (dropChars 10 h))
      by (rewrite dropChars_dropChars; f_equal; lia).
    now rewrite take_drop_chars, take_drop_chars.
  - rewrite !takeChars_length, !dropChars_length. lia.
Qed.

(** X7 on a hash of 66 characters. *)
Lemma X7_long_hash_abbreviated_witness :
  ProgressBar.abbreviateHash
    "0x9f2c4b7a1d3e5f60718293a4b5c6d7e8f90a1b2c3d4e5f60718293a4b5c6d7e8"
  = "0x9f2c4b7a...b5c6d7e8"
  /\ exists first middle last,
       "0x9f2c4b7a1d3e5f60718293a4b5c6d7e8f90a1b2c3d4e5f60718293a4b5c6d7e8"
       = first ++ middle ++ last
       /\ ProgressBar.abbreviateHash
            "0x9f2c4b7a1d3e5f60718293a4b5c6d7e8f90a1b2c3d4e5f60718293a4b5c6d7e8"
          = first ++ "..." ++ last
       /\ String.length first = 10%nat /\ String.length last = 8%nat
       /\ String.length middle = 48%nat.
Proof.
  split; [vm_compute; reflexivity |].
  apply (X7_long_hash_abbreviated
           "0x9f2c4b7a1d3e5f60718293a4b5c6d7e8f90a1b2c3d4e5f60718293a4b5c6d7e8").
  simpl. lia.
Defined.

(** ** [QRDeposit]: its poll against the hook's, and restoring a session *)

(** X8.  The component's [checkSessionStatus] and the hook's have the
    same guard and, past it, make the same setter calls for every answer
    and every failure except in two cases: when the answered session has
    status COMPLETED and the captured one has not, the component also sets
    the completion flag and refreshes the balance; and on a 404 the
    component sets the completion flag and, unless the captured session is
    COMPLETED, drops the session and hides the QR, where the hook changes
    nothing. *)
Theorem X8_component_poll_against_hook (env : State) (captured : DepositSession)
        (s : State) :
  currentSession env = Some captured ->
  QRDeposit.checkSessionStatus_returnsEarly env = checkSessionStatus_returnsEarly env
  /\ (forall session,
        status session <> "COMPLETED" \/ status captured = "COMPLETED" ->
        fst (QRDeposit.checkSessionStatus_settled env (QRDeposit.GetOk (Some session))) s
        = checkSessionStatus_settled env (GetOk (Some session)) s
        /\ snd (QRDeposit.checkSessionStatus_settled env (QRDeposit.GetOk (Some session)))
           = false)
  /\ (forall session,
        status session = "COMPLETED" -> status captured <> "COMPLETED" ->
        fst (QRDeposit.checkSessionStatus_settled env (QRDeposit.GetOk (Some session))) s
        = setIsDepositCompleted true
            (checkSessionStatus_settled env (GetOk (Some session)) s)
        /\ snd (QRDeposit.checkSessionStatus_settled env (QRDeposit.GetOk (Some session)))
           = true)
  /\ (fst (QRDeposit.checkSessionStatus_settled env (QRDeposit.GetOk None)) s
      = checkSessionStatus_settled env (GetOk None) s
      /\ fst (QRDeposit.checkSessionStatus_settled env QRDeposit.GetThrew) s
         = checkSessionStatus_settled env GetThrew s)
  /\ checkSessionStatus_settled env GetThrew s = s
  /\ isDepositCompleted (fst (QRDeposit.checkSessionStatus_settled env QRDeposit.GetNotFound) s)
     = true
  /\ (status captured <> "COMPLETED" ->
      currentSession (fst (QRDeposit.checkSessionStatus_settled env QRDeposit.GetNotFound) s)
      = None
      /\ showQR (fst (QRDeposit.checkSessionStatus_settled env QRDeposit.GetNotFound) s)
         = false)
  /\ (status captured = "COMPLETED" ->
      fst (QRDeposit.checkSessionStatus_settled env QRDeposit.GetNotFound) s
      = setIsDepositCompleted true s).
Proof.
  intro Hc. unfold QRDeposit.checkSessionStatus_settled. rewrite Hc.
  split; [reflexivity |].
  split.
  { intros session H.
    assert (E : String.eqb (status session) "COMPLETED"
                && negb (String.eqb (status captured) "COMPLETED") = false).
    { destruct H as [H | H].
      - apply String.eqb_neq in H. now rewrite H.
      - apply String.eqb_eq in H. rewrite H. apply andb_false_r. }
    rewrite E. split; reflexivity. }
  split.
  { intros session H1 H2.
    apply String.eqb_eq in H1. apply String.eqb_neq in H2. rewrite H1, H2. simpl.
    split; reflexivity. }
  split; [split; reflexivity |].
  split; [reflexivity |].
  split; [simpl; now destruct (negb _) |].
  split.
  - intro H. apply String.eqb_neq in H. rewrite H. simpl. auto.
  - intro H. apply String.eqb_eq in H. rewrite H. reflexivity.
Qed.

(** X8 for a render that holds the session the server created. *)
Lemma X8_component_poll_against_hook_witness :
  currentSession (createSession_resolved (sessionWith None) initialState)
  = Some (sessionWith None)
  /\ isDepositCompleted
       (fst (QRDeposit.checkSessionStatus_settled
               (createSession_resolved (sessionWith None) initialState)
               QRDeposit.GetNotFound)
            (createSession_resolved (sessionWith None) initialState))
     = true.
Proof.
  split; [reflexivity |].
  apply (X8_component_poll_against_hook
           (createSession_resolved (sessionWith None) initialState)
           (sessionWith None)
           (createSession_resolved (sessionWith None) initialState) eq_refl).
Defined.



(** ** The hook: the progress shown when the status changes *)




Section ProgressFollowsStatus.

Context {constants : Constants}.


End ProgressFollowsStatus.


